(** * Threaded comments: entity, mutation policy and service

    A shallow embedding of the comment subsystem of the comment-app backend:

    - the [Comment] entity (comments/entities/comment.entity.ts) with its
      computed getters [isEditable], [isDeletable], [isRestorable];
    - [CommentsService] (comments/comments.service.ts): [create], [findById],
      [findByIdWithChildren], [findMany], [update], [delete], [restore],
      [getThreadByComment] and the private [buildNestedStructure].

    Modelling decisions.

    - The [comments] table is a finite map from primary key to row.  A
      repository call is one atomic step on that map.
    - Timestamps are [Date] values compared through their millisecond value,
      an integer; they are [Z] here.  A nullable column is an [option].
    - [path] is a [string]; the service only ever tests it for truthiness
      before use, so the empty string stands for both [''] and [NULL].
    - An [async] method is a tree of awaited calls that settles with a value
      or an exception.  [run] executes it alone; [interleave] executes several
      of them together, switching between them at their [await]s, as the
      event loop does with concurrent requests.  Effects performed before a
      rejection stay in the table (nothing in the service opens a
      transaction).
    - What the environment decides is an explicit argument: the uuid and the
      creation time the database gives a new row, the value of [Date.now()]
      read by a policy getter, the value of [new Date()] stored as a
      timestamp, and the outcome of the notification collaborator.
    - Relations loaded by the ORM ([author], [parent], [notifications]), the
      [updatedAt] / [deletedAtSoft] columns it maintains by itself (the
      service never soft-removes through the ORM, so [deletedAtSoft] is always
      [NULL]) and schema-level rejections (column widths, foreign keys) are
      outside the model.
    - Ids are strings that stand for uuids.  Two refusals of the database
      that the service can run into with the arguments it accepts are
      modelled as rejections with [QueryFailedError]: the empty string as
      [parentId] of a new row, which [create] does not look up, and the
      negative [OFFSET] that [findMany] computes for page 0. *)

From stdpp Require Import gmap strings list sorting.
From Stdlib Require Import Ascii ZArith Lia.

Local Open Scope string_scope.
Local Open Scope list_scope.
Local Open Scope Z_scope.

(** ** The entity *)

Record Comment : Type := mkComment {
  id : string;
  content : string;
  originalContent : option string;
  isEdited : bool;
  editedAt : option Z;
  isDeleted : bool;
  deletedAt : option Z;
  restoredAt : option Z;
  depth : Z;
  childrenCount : Z;
  path : string;
  createdAt : Z;
  authorId : string;
  parentId : option string
}.

(** JavaScript truthiness of a string: every string but [''] . *)
Definition truthy (s : string) : bool := negb (String.eqb s "").

(** [15 * 60 * 1000], the width of the mutation window in milliseconds. *)
Definition fifteenMinutes : Z := 15 * 60 * 1000.

(** [get isEditable()]: [this.createdAt > fifteenMinutesAgo && !this.isDeleted]
    where [fifteenMinutesAgo = new Date(Date.now() - 15 * 60 * 1000)]. *)
Definition isEditable (c : Comment) (now : Z) : bool :=
  let fifteenMinutesAgo := now - fifteenMinutes in
  (fifteenMinutesAgo <? createdAt c) && negb (isDeleted c).

(** [get isDeletable()]: [this.createdAt > fifteenMinutesAgo]. *)
Definition isDeletable (c : Comment) (now : Z) : bool :=
  let fifteenMinutesAgo := now - fifteenMinutes in
  fifteenMinutesAgo <? createdAt c.

(** [get isRestorable()]:
    [if (!this.isDeleted || !this.deletedAt) return false;
     return this.deletedAt > fifteenMinutesAgo]. *)
Definition isRestorable (c : Comment) (now : Z) : bool :=
  match isDeleted c, deletedAt c with
  | true, Some d =>
      let fifteenMinutesAgo := now - fifteenMinutes in
      fifteenMinutesAgo <? d
  | _, _ => false
  end.

(** [get displayContent()]. *)
Definition displayContent (c : Comment) : string :=
  if isDeleted c then "[Comment deleted]" else content c.

(** ** Exceptions and asynchronous computations *)

(** The three HTTP exceptions the service throws, with their messages;
    whatever the notification collaborator rejects with; the engine's
    [RangeError] when a recursion exhausts the call stack; and the ORM's
    [QueryFailedError] when the database refuses a statement. *)
Inductive Exception : Type :=
  | NotFoundException (message : string)
  | ForbiddenException (message : string)
  | BadRequestException (message : string)
  | CollaboratorError (message : string)
  | RangeError (message : string)
  | QueryFailedError (message : string).

(** The error taxonomy of the specification, read off the exception class. *)
Inductive ErrorKind : Type := NotFound | Forbidden | InvalidState | Foreign.

Definition errorKind (e : Exception) : ErrorKind :=
  match e with
  | NotFoundException _ => NotFound
  | ForbiddenException _ => Forbidden
  | BadRequestException _ => InvalidState
  | CollaboratorError _ => Foreign
  | RangeError _ => Foreign
  | QueryFailedError _ => Foreign
  end.

Inductive Settled (A : Type) : Type :=
  | Resolved (a : A)
  | Rejected (e : Exception).
Arguments Resolved {A} a.
Arguments Rejected {A} e.

(** The [comments] table. *)
Abbreviation Table := (gmap string Comment).

(** A [Promise<A>] produced by an [async] method: either settled, or
    suspended at an [await] on a call that acts atomically on the table and
    hands its result to the rest of the method. *)
Inductive Async (A : Type) : Type :=
  | Settle (r : Settled A)
  | Await {R : Type} (call : Table → R * Table) (k : R → Async A).
Arguments Settle {A} r.
Arguments Await {A R} call k.

Definition resolve {A} (a : A) : Async A := Settle (Resolved a).
Definition throw {A} (e : Exception) : Async A := Settle (Rejected e).

(** [const x = await p; k x]: a rejection of [p] skips [k]. *)
Fixpoint bind {A B} (p : Async A) (k : A → Async B) : Async B :=
  match p with
  | Settle (Resolved a) => k a
  | Settle (Rejected e) => Settle (Rejected e)
  | Await call k' => Await call (λ r, bind (k' r) k)
  end.

Notation "x ⇐ p ;; k" := (bind p (λ x, k))
  (at level 100, p at next level, right associativity, only parsing).

(** One request served alone: every awaited call runs as soon as it is
    issued. *)
Fixpoint run {A} (p : Async A) (t : Table) : Settled A * Table :=
  match p with
  | Settle r => (r, t)
  | Await call k => let '(r, t') := call t in run (k r) t'
  end.

(** One turn of the event loop for one request: its pending call is
    performed and the method runs on to its next [await]. *)
Definition step {A} (p : Async A) (t : Table) : Async A * Table :=
  match p with
  | Settle r => (p, t)
  | Await call k => let '(r, t') := call t in (k r, t')
  end.

(** Concurrent requests: [schedule] names, turn by turn, the request whose
    pending call completes next. *)
Fixpoint interleave {A} (schedule : list nat) (tasks : list (Async A))
    (t : Table) : list (Async A) * Table :=
  match schedule with
  | [] => (tasks, t)
  | i :: schedule' =>
      match tasks !! i with
      | Some p => let '(p', t') := step p t in
                  interleave schedule' (<[i := p']> tasks) t'
      | None => interleave schedule' tasks t
      end
  end.

(** ** Strings: [split] and [LIKE] *)

(** [s.split(sep)] for a one-character separator: [''.split('.')] is [['']],
    ['a.b'.split('.')] is [['a', 'b']]. *)
Fixpoint split (sep : ascii) (s : string) : list string :=
  match s with
  | EmptyString => [""]
  | String ch s' =>
      if Ascii.eqb ch sep then "" :: split sep s'
      else match split sep s' with
           | seg :: segs => String ch seg :: segs
           | [] => [String ch ""]
           end
  end.

(** [column LIKE 'prefix%'], for a prefix without [LIKE] metacharacters (the
    prefixes of the service are made of uuids and dots). *)
Definition like_prefix (prefix column : string) : bool :=
  String.prefix prefix column.

(** ** The repository *)

Definition set_childrenCount (n : Z) (c : Comment) : Comment :=
  mkComment (id c) (content c) (originalContent c) (isEdited c) (editedAt c)
    (isDeleted c) (deletedAt c) (restoredAt c) (depth c) n (path c)
    (createdAt c) (authorId c) (parentId c).

(** The rows of the table, and the two orderings the queries ask for (rows
    of equal [createdAt] come in an order SQL leaves open; the model fixes
    one). *)
Definition rows (t : Table) : list Comment := (map_to_list t).*2.

Definition createdBefore (a b : Comment) : Prop := createdAt a ≤ createdAt b.
Definition createdAfter (a b : Comment) : Prop := createdAt b ≤ createdAt a.

#[local] Instance createdBefore_dec a b : Decision (createdBefore a b).
Proof. unfold createdBefore. apply _. Defined.
#[local] Instance createdAfter_dec a b : Decision (createdAfter a b).
Proof. unfold createdAfter. apply _. Defined.

Definition orderByCreatedAtASC (l : list Comment) : list Comment :=
  merge_sort createdBefore l.

Definition orderByCreatedAtDESC (l : list Comment) : list Comment :=
  merge_sort createdAfter l.

Module commentRepository.

(** [findOne({ where: { id } })]. *)
Definition findOne (id0 : string) : Async (option Comment) :=
  Await (λ t, (t !! id0, t)) resolve.

(** [update(id, { childrenCount })]: one [UPDATE ... SET childrenCount = n
    WHERE id = ...]; no row, no effect. *)
Definition update (id0 : string) (n : Z) : Async unit :=
  Await (λ t, (tt, alter (set_childrenCount n) id0 t)) resolve.

(** [save(entity)] of an entity that was loaded: the row of that primary
    key becomes the entity. *)
Definition save (c : Comment) : Async Comment :=
  Await (λ t, (c, <[id c := c]> t)) resolve.

(** [save(entity)] of an entity fresh from [create]: an [INSERT] of all its
    columns.  [parentId] is a [uuid] column and the empty string is not a
    uuid: the database refuses such a row, the ORM rejects with
    [QueryFailedError], and nothing is stored. *)
Definition insert (c : Comment) : Async Comment :=
  Await (λ t, match parentId c with
              | Some p =>
                  if truthy p then (Resolved c, <[id c := c]> t)
                  else (Rejected (QueryFailedError
                                    "invalid input syntax for type uuid"), t)
              | None => (Resolved c, <[id c := c]> t)
              end)
        Settle.

(** [create({ content, authorId, parentId, depth, path })] followed by the
    insertion: the database supplies the uuid, [createdAt] and the column
    defaults. *)
Definition create (content0 authorId0 : string) (parentId0 : option string)
    (depth0 : Z) (path0 : string) (newId : string) (now : Z) : Comment :=
  mkComment newId content0 None false None false None None depth0 0 path0
    now authorId0 parentId0.

(** [createQueryBuilder('comment').where(...).orderBy('comment.createdAt',
    'ASC').getMany()]. *)
Definition getManyASC (where_ : Comment → bool) : Async (list Comment) :=
  Await (λ t, (orderByCreatedAtASC (filter (λ c, where_ c = true) (rows t)), t))
        resolve.

(** [...orderBy('comment.createdAt', 'DESC').skip(n).take(m)
    .getManyAndCount()].  The query builder sends [OFFSET n] and [LIMIT m]
    only when the number is truthy, so [take(0)] is no limit at all; the
    database refuses a negative [OFFSET], and the ORM then rejects with
    [QueryFailedError].  Among rows of equal [createdAt] the database is
    free to choose the order, anew for every query; the model has one
    order, so a statement that compares the rows of two queries is made of
    tables whose [createdAt] are distinct. *)
Definition getManyAndCountDESC (where_ : Comment → bool) (skip_ : Z)
    (take_ : nat) : Async (list Comment * nat) :=
  Await (λ t, let matching := filter (λ c, where_ c = true) (rows t) in
              let listing := orderByCreatedAtDESC matching in
              if skip_ <? 0 then
                (Rejected (QueryFailedError "OFFSET must not be negative"), t)
              else
                let from := drop (Z.to_nat skip_) listing in
                (Resolved (match take_ with
                           | O => from
                           | S _ => take take_ from
                           end, length matching), t))
        Settle.

End commentRepository.

(** ** The service *)

(** A comment with its [children] property filled in by the assembler. *)
#[warnings="-register-all"]
Inductive Nested : Type :=
  | Nest (comment : Comment) (children : list Nested).

Definition set_edit (original : option string) (text : string) (at_ : Z)
    (c : Comment) : Comment :=
  mkComment (id c) text original true (Some at_)
    (isDeleted c) (deletedAt c) (restoredAt c) (depth c) (childrenCount c)
    (path c) (createdAt c) (authorId c) (parentId c).

Definition set_deleted (at_ : Z) (c : Comment) : Comment :=
  mkComment (id c) (content c) (originalContent c) (isEdited c) (editedAt c)
    true (Some at_) (restoredAt c) (depth c) (childrenCount c)
    (path c) (createdAt c) (authorId c) (parentId c).

Definition set_restored (at_ : Z) (c : Comment) : Comment :=
  mkComment (id c) (content c) (originalContent c) (isEdited c) (editedAt c)
    false None (Some at_) (depth c) (childrenCount c)
    (path c) (createdAt c) (authorId c) (parentId c).

(** The result of [findMany]. *)
Record FindManyResult : Type := mkFindManyResult {
  comments : list Comment;
  total : nat;
  page : nat;
  limit : nat
}.

(** The argument of [LIKE] in [findByIdWithChildren], without its final [%]:
    [`${comment.path ? comment.path + '.' : ''}${comment.id}`]. *)
Definition subtreePrefix (comment : Comment) : string :=
  (if truthy (path comment) then path comment +:+ "." else "")
  +:+ id comment.

(** The root of the thread of [comment] in [getThreadByComment]:
    [comment.path.split('.')[0]] when the path is truthy, else the id the
    method was called with. *)
Definition threadRoot (commentId : string) (comment : Comment) : string :=
  if truthy (path comment)
  then default "" (head (split "." (path comment)))
  else commentId.

(** The test of the [filter] in [buildNestedStructure]:
    [comment.path && comment.path.split('.').includes(parentId)]. *)
Definition namesAncestor (parentId0 : string) (comment : Comment) : bool :=
  truthy (path comment)
  && bool_decide (parentId0 ∈ split "." (path comment)).

(** The [WHERE] clause [findMany] builds from its options. *)
Definition findManyWhere (includeDeleted : bool) (authorId0 : option string)
    (parentId0 : option (option string)) (c : Comment) : bool :=
  (if negb includeDeleted then negb (isDeleted c) else true)
  && (match authorId0 with
      | Some a => if truthy a then String.eqb (authorId c) a else true
      | None => true
      end)
  && (match parentId0 with
      | None => true
      | Some None => bool_decide (parentId c = None)
      | Some (Some p) => bool_decide (parentId c = Some p)
      end).

Module CommentsService.
Section service.

(** [notificationsService.createCommentReplyNotification(recipient,
    commentId, actor)], the external collaborator: [None] when its promise
    resolves, [Some e] when it rejects with [e]. *)
Variable createCommentReplyNotification :
  string → string → string → option Exception.

Definition notify (recipient commentId actor : string) : Async unit :=
  Await (λ t, (createCommentReplyNotification recipient commentId actor, t))
        (λ outcome, match outcome with
                    | None => resolve tt
                    | Some e => throw e
                    end).

(** [findById(id)]. *)
Definition findById (id0 : string) : Async (option Comment) :=
  commentRepository.findOne id0.

(** [create(data)] with [data = { content, authorId, parentId }]; [newId]
    and [now] are the uuid and [createdAt] the database gives the row. *)
Definition create (content0 authorId0 : string) (parentId0 : option string)
    (newId : string) (now : Z) : Async (option Comment) :=
  ancestry ⇐
    (match parentId0 with
     | Some pid =>
         if truthy pid then
           parent ⇐ findById pid ;;
           match parent with
           | None => throw (NotFoundException "Parent comment not found")
           | Some parent =>
               if isDeleted parent then
                 throw (BadRequestException "Cannot reply to deleted comment")
               else
                 let depth0 := depth parent + 1 in
                 let path0 := if truthy (path parent)
                              then path parent +:+ "." +:+ id parent
                              else id parent in
                 _ ⇐ commentRepository.update pid (childrenCount parent + 1) ;;
                 resolve (depth0, path0, Some parent)
           end
         else resolve (0, "", None)
     | None => resolve (0, "", None)
     end) ;;
  let '(depth0, path0, parent) := ancestry in
  let comment :=
    commentRepository.create content0 authorId0 parentId0 depth0 path0
      newId now in
  savedComment ⇐ commentRepository.insert comment ;;
  _ ⇐ (match parent with
       | Some parent =>
           if negb (String.eqb (authorId parent) authorId0) then
             notify (authorId parent) (id savedComment) authorId0
           else resolve tt
       | None => resolve tt
       end) ;;
  findById (id savedComment).

(** [update(id, data, userId)] with [data = { content }]; [now] is the
    [Date.now()] of the [isEditable] getter, [stamp] the later
    [new Date()]. *)
Definition update (id0 content0 userId : string) (now stamp : Z)
    : Async Comment :=
  comment ⇐ findById id0 ;;
  match comment with
  | None => throw (NotFoundException "Comment not found")
  | Some comment =>
      if negb (String.eqb (authorId comment) userId) then
        throw (ForbiddenException "You can only edit your own comments")
      else if negb (isEditable comment now) then
        throw (ForbiddenException
                 "Comment can only be edited within 15 minutes of posting")
      else if isDeleted comment then
        throw (BadRequestException "Cannot edit deleted comment")
      else
        let original := if negb (isEdited comment)
                        then Some (content comment)
                        else originalContent comment in
        commentRepository.save (set_edit original content0 stamp comment)
  end.

(** [delete(id, userId)]. *)
Definition delete (id0 userId : string) (now stamp : Z) : Async Comment :=
  comment ⇐ findById id0 ;;
  match comment with
  | None => throw (NotFoundException "Comment not found")
  | Some comment =>
      if negb (String.eqb (authorId comment) userId) then
        throw (ForbiddenException "You can only delete your own comments")
      else if negb (isDeletable comment now) then
        throw (ForbiddenException
                 "Comment can only be deleted within 15 minutes of posting")
      else commentRepository.save (set_deleted stamp comment)
  end.

(** [restore(id, userId)]. *)
Definition restore (id0 userId : string) (now stamp : Z) : Async Comment :=
  comment ⇐ findById id0 ;;
  match comment with
  | None => throw (NotFoundException "Comment not found")
  | Some comment =>
      if negb (String.eqb (authorId comment) userId) then
        throw (ForbiddenException "You can only restore your own comments")
      else if negb (isRestorable comment now) then
        throw (ForbiddenException
                 "Comment can only be restored within 15 minutes of deletion")
      else commentRepository.save (set_restored stamp comment)
  end.

(** [buildNestedStructure(comments, parentId)]; [stack] bounds the depth
    of the recursion, [None] is the engine giving up. *)
Fixpoint buildNestedStructure (stack : nat) (comments : list Comment)
    (parentId0 : string) : option (list Nested) :=
  match stack with
  | O => None
  | S stack' =>
      let children :=
        filter (λ comment, namesAncestor parentId0 comment = true) comments
      in
      mapM (λ child,
              Nest child <$> buildNestedStructure stack' comments (id child))
           children
  end.

(** [findByIdWithChildren(id)]. *)
Definition findByIdWithChildren (stack : nat) (id0 : string)
    : Async (option Nested) :=
  comment ⇐ commentRepository.findOne id0 ;;
  match comment with
  | None => resolve None
  | Some comment =>
      children ⇐ commentRepository.getManyASC
                   (λ c, like_prefix (subtreePrefix comment) (path c)
                         && negb (String.eqb (id c) id0)) ;;
      match buildNestedStructure stack children (id comment) with
      | Some nested => resolve (Some (Nest comment nested))
      | None => throw (RangeError "Maximum call stack size exceeded")
      end
  end.

(** [getThreadByComment(commentId)]. *)
Definition getThreadByComment (commentId : string) : Async (list Comment) :=
  comment ⇐ findById commentId ;;
  match comment with
  | None => throw (NotFoundException "Comment not found")
  | Some comment =>
      let rootId := threadRoot commentId comment in
      commentRepository.getManyASC
        (λ c, String.eqb (id c) rootId || like_prefix rootId (path c))
  end.

(** [findMany(options)]; an absent option is [None], and [parentId] is
    absent ([None]), [null] ([Some None]) or an id.  [page] and [limit] are
    natural numbers; [skip] is [(page - 1) * limit] as the code computes
    it, negative for page 0. *)
Definition findMany (page0 limit0 : option nat) (authorId0 : option string)
    (parentId0 : option (option string)) (includeDeleted0 : option bool)
    : Async FindManyResult :=
  let page1 := default 1%nat page0 in
  let limit1 := default 10%nat limit0 in
  let includeDeleted := default false includeDeleted0 in
  r ⇐ commentRepository.getManyAndCountDESC
        (findManyWhere includeDeleted authorId0 parentId0)
        ((Z.of_nat page1 - 1) * Z.of_nat limit1) limit1 ;;
  resolve {| comments := r.1; total := r.2; page := page1; limit := limit1 |}.

End service.
End CommentsService.

Import CommentsService.

(** ** Invariants and views used by the statements *)

(** The primary key of a row is its [id] column. *)
Definition keyed (t : Table) : Prop :=
  ∀ k c, t !! k = Some c → id c = k.

(** The write-once columns of two versions of a comment agree. *)
Definition sameIdentity (a b : Comment) : Prop :=
  id a = id b ∧ authorId a = authorId b ∧ parentId a = parentId b
  ∧ depth a = depth b ∧ path a = path b.

(** The content columns, resp. the deletion columns, of two versions agree. *)
Definition sameContent (a b : Comment) : Prop :=
  content a = content b ∧ originalContent a = originalContent b
  ∧ isEdited a = isEdited b ∧ editedAt a = editedAt b.

Definition sameDeletion (a b : Comment) : Prop :=
  isDeleted a = isDeleted b ∧ deletedAt a = deletedAt b.

(** The outcome of a mutation aimed at row [id0] of table [t] keeps the
    write-once columns: every other row is untouched and no row appears; the
    row itself keeps its write-once columns, its counter and its creation
    time; and a comment returned is that row as now stored. *)
Definition keepsWriteOnce (outcome : Settled Comment * Table) (id0 : string)
    (t : Table) : Prop :=
  (∀ k, k ≠ id0 → outcome.2 !! k = t !! k)
  ∧ (t !! id0 = None → outcome.2 !! id0 = None)
  ∧ (∀ c, t !! id0 = Some c →
          ∃ c', outcome.2 !! id0 = Some c' ∧ sameIdentity c c'
                ∧ childrenCount c' = childrenCount c
                ∧ createdAt c' = createdAt c)
  ∧ (∀ r, outcome.1 = Resolved r →
          outcome.2 !! id0 = Some r
          ∧ ∃ c, t !! id0 = Some c ∧ sameIdentity c r).

(** The comment at the root of a nested result, its direct children, and
    every comment occurrence in it. *)
Definition comment_of (n : Nested) : Comment :=
  match n with Nest c _ => c end.

Definition children_of (n : Nested) : list Nested :=
  match n with Nest _ l => l end.

Fixpoint occurrences (n : Nested) : list Comment :=
  match n with
  | Nest c l => c :: flat_map occurrences l
  end.

(** The flat list [findByIdWithChildren] hands to the assembler, and the
    flat list [getThreadByComment] returns. *)
Definition subtreeRows (id0 : string) (root : Comment) (t : Table)
    : list Comment :=
  orderByCreatedAtASC
    (filter (λ c, like_prefix (subtreePrefix root) (path c)
                  && negb (String.eqb (id c) id0) = true) (rows t)).

Definition threadRows (rootId : string) (t : Table) : list Comment :=
  orderByCreatedAtASC
    (filter (λ c, String.eqb (id c) rootId || like_prefix rootId (path c)
                  = true) (rows t)).

(** Every comment named in a path has a strictly shorter path: ancestry
    paths do not loop. *)
Definition ancestorsShorter (cs : list Comment) : Prop :=
  ∀ c c', c ∈ cs → c' ∈ cs → id c' ∈ split "." (path c) →
          (String.length (path c') < String.length (path c))%nat.

(** ** Concurrent replies to one parent *)

(** [n] turns of the event loop given to one request. *)
Fixpoint steps {A} (n : nat) (p : Async A) (t : Table) : Async A * Table :=
  match n with
  | O => (p, t)
  | S n' => let '(p', t') := step p t in steps n' p' t'
  end.

(** A request to reply, with the uuid and creation time its row will get. *)
Record ReplyRequest : Type := mkReplyRequest {
  replyContent : string;
  replyAuthor : string;
  replyId : string;
  replyAt : Z
}.

Definition replyTask notifier (pid : string) (r : ReplyRequest)
    : Async (option Comment) :=
  create notifier (replyContent r) (replyAuthor r) (Some pid) (replyId r)
    (replyAt r).

(** The request once its lookup of the parent has returned [parent]: the
    rest of [create], holding that snapshot. *)
Definition afterLookup notifier (pid : string) (parent : Comment)
    (r : ReplyRequest) : Async (option Comment) :=
  (step (replyTask notifier pid r) {[pid := parent]}).1.

(** The row a reply to [parent] is saved as, and how its request settles. *)
Definition replyRow (pid : string) (parent : Comment) (r : ReplyRequest)
    : Comment :=
  commentRepository.create (replyContent r) (replyAuthor r) (Some pid)
    (depth parent + 1)
    (if truthy (path parent) then path parent +:+ "." +:+ id parent
     else id parent)
    (replyId r) (replyAt r).

Definition replyOutcome notifier (pid : string) (parent : Comment)
    (r : ReplyRequest) : Settled (option Comment) :=
  if negb (String.eqb (authorId parent) (replyAuthor r)) then
    match notifier (authorId parent) (replyId r) (replyAuthor r) with
    | None => Resolved (Some (replyRow pid parent r))
    | Some e => Rejected e
    end
  else Resolved (Some (replyRow pid parent r)).

(** The writes of one reply that holds the snapshot [parent], and of a list
    of such replies one after the other. *)
Definition replyWrites (pid : string) (parent : Comment) (t : Table)
    (r : ReplyRequest) : Table :=
  <[replyId r := replyRow pid parent r]>
    (alter (set_childrenCount (childrenCount parent + 1)) pid t).

Definition repliesWrites (pid : string) (parent : Comment)
    (reqs : list ReplyRequest) (t : Table) : Table :=
  foldl (replyWrites pid parent) t reqs.

(** The schedule in which every request first gets its parent lookup and the
    requests are then completed one by one. *)
Definition lookupsFirst (n : nat) : list nat :=
  seq 0 n ++ flat_map (replicate 4) (seq 0 n).

(** ** Sample data *)

(** Two notification collaborators: one that always delivers, one that is
    down. *)
Definition delivers : string → string → string → option Exception :=
  λ _ _ _, None.
Definition down : string → string → string → option Exception :=
  λ _ _ _, Some (CollaboratorError "notifications unavailable").

(** A thread built through the service itself: root [A] by [u1], reply [B]
    to [A] by [u2], reply [C] to [B] by [u1]. *)
Definition tableA : Table :=
  (run (create delivers "root" "u1" None "A" 100) ∅).2.
Definition tableAB : Table :=
  (run (create delivers "reply" "u2" (Some "A") "B" 200) tableA).2.
Definition tableABC : Table :=
  (run (create delivers "reply to reply" "u1" (Some "B") "C" 300) tableAB).2.

Definition commentA0 : Comment :=
  mkComment "A" "root" None false None false None None 0 0 "" 100 "u1" None.
Definition commentA : Comment := set_childrenCount 1 commentA0.
Definition commentB : Comment :=
  mkComment "B" "reply" None false None false None None 1 1 "A" 200 "u2"
    (Some "A").
Definition commentC : Comment :=
  mkComment "C" "reply to reply" None false None false None None 2 0 "A.B" 300
    "u1" (Some "B").

(** Two replies to [A] arriving together, and two orders in which the event
    loop may complete their awaited calls: one request after the other, or
    both parent lookups first. *)
Definition replyB : Async (option Comment) :=
  create delivers "first reply" "u2" (Some "A") "B" 200.
Definition replyC : Async (option Comment) :=
  create delivers "second reply" "u3" (Some "A") "C" 201.

Definition oneAfterTheOther : list nat :=
  [0; 0; 0; 0; 0; 1; 1; 1; 1; 1]%nat.
Definition bothLookupsFirst : list nat :=
  [0; 1; 0; 0; 0; 0; 1; 1; 1; 1]%nat.

Definition settledB : Comment :=
  mkComment "B" "first reply" None false None false None None 1 0 "A" 200
    "u2" (Some "A").
Definition settledC : Comment :=
  mkComment "C" "second reply" None false None false None None 1 0 "A" 201
    "u3" (Some "A").

(** The stored comments whose [parentId] is [pid]. *)
Definition directChildren (pid : string) (t : Table) : list Comment :=
  filter (λ c, parentId c = Some pid) (rows t).

(** [C] soft-deleted by its author, one tenth of a second after it was
    posted. *)
Definition tableDeleted : Table :=
  (run (delete "C" "u1" 400 401) tableABC).2.
Definition deletedC : Comment := set_deleted 401 commentC.

(** A comment created at instant 0, for the boundary of the window. *)
Definition sample (deleted : bool) (deletedAt0 : option Z) : Comment :=
  mkComment "c1" "hello" None false None deleted deletedAt0 None 0 0 "" 0
    "u1" None.

(** ** Further views: requests in sequence *)

(** Requests served one after the other, each to completion: the table they
    leave. *)
Definition serveAll {A} (tasks : list (Async A)) (t : Table) : Table :=
  foldl (λ t' p, (run p t').2) t tasks.

(** An edit request of the author: the new text, the [Date.now()] of the
    window test and the [new Date()] stored. *)
Record Edit : Type := mkEdit {
  editText : string;
  editNow : Z;
  editStamp : Z
}.

Definition editTask (id0 user : string) (e : Edit) : Async Comment :=
  update id0 (editText e) user (editNow e) (editStamp e).

(** ** Further views: well-formed ancestry *)

(** A string that can serve as an id in a path: not empty, and a single
    segment of a dotted path (as a uuid is). *)
Definition segment (s : string) : Prop :=
  s ≠ "" ∧ split "." s = [s].

(** The ancestry data of a table is well formed: rows are keyed by their
    id, ids are single segments, and paths do not loop. *)
Definition wellFormed (t : Table) : Prop :=
  keyed t
  ∧ (∀ k c, t !! k = Some c → segment k)
  ∧ ancestorsShorter (rows t).

(** A uuid the database may give a new row: a single segment that no row
    has and no path mentions. *)
Definition freshId (newId : string) (t : Table) : Prop :=
  segment newId
  ∧ t !! newId = None
  ∧ ∀ c, c ∈ rows t → newId ∉ split "." (path c).

(** ** Further views: nodes of a nested result, pages of a listing *)

(** Every node of a nested result, the node itself first. *)
Fixpoint subtrees (n : Nested) : list Nested :=
  match n with
  | Nest _ l => n :: flat_map subtrees l
  end.

(** The comments of one page of [findMany]. *)
Definition findManyPage (t : Table) (page0 limit0 : nat)
    (authorId0 : option string) (parentId0 : option (option string))
    (includeDeleted0 : option bool) : list Comment :=
  match (run (findMany (Some page0) (Some limit0) authorId0 parentId0
                includeDeleted0) t).1 with
  | Resolved r => comments r
  | Rejected _ => []
  end.

(** A comment passes the options of [findMany]: it is not soft-deleted
    unless [includeDeleted] is true; its author is the one asked for, when a
    non-empty [authorId] is given; and it is a root when [parentId] is
    [null], a child of [parentId] when that is an id. *)
Definition passesOptions (authorId0 : option string)
    (parentId0 : option (option string)) (includeDeleted0 : option bool)
    (c : Comment) : Prop :=
  (includeDeleted0 = Some true ∨ isDeleted c = false)
  ∧ (∀ a, authorId0 = Some a → a ≠ "" → authorId c = a)
  ∧ (parentId0 = Some None → parentId c = None)
  ∧ (∀ p, parentId0 = Some (Some p) → parentId c = Some p).

(** ** Further views: a reply racing a soft-delete *)

(** [delete] as one of several requests of a common result type. *)
Definition deleteTask (id0 user : string) (now stamp : Z)
    : Async (option Comment) :=
  deleted ⇐ delete id0 user now stamp ;; resolve (Some deleted).

(** The reply's parent lookup first, then the whole soft-delete, then the
    rest of the reply. *)
Definition deleteAfterLookup : list nat :=
  [0%nat] ++ replicate 2 1%nat ++ replicate 4 0%nat.

(** ** Users and authentication *)

(** The [User] entity (users/entities/user.entity.ts): its columns. *)
Module User.

Record t : Type := mk {
  id : string;
  username : string;
  email : string;
  password : string;
  firstName : option string;
  lastName : option string;
  avatar : option string;
  isActive : bool;
  isEmailVerified : bool;
  lastLoginAt : option Z;
  createdAt : Z
}.

(** [get fullName()]: [this.firstName && this.lastName ? `${this.firstName}
    ${this.lastName}` : this.username]. *)
Definition fullName (u : t) : string :=
  match firstName u, lastName u with
  | Some f, Some l =>
      if truthy f && truthy l then f +:+ " " +:+ l else username u
  | _, _ => username u
  end.

End User.

(** The [users] table, keyed by primary key. *)
Abbreviation Users := (gmap string User.t).

(** How a call on the users table ends: with a value or with one of the
    HTTP exceptions the two services throw. *)
Inductive UserException : Type :=
  | UserNotFound (message : string)
  | ConflictException (message : string)
  | UnauthorizedException (message : string).

Inductive Outcome (A : Type) : Type :=
  | Returned (a : A)
  | Thrown (e : UserException).
Arguments Returned {A} a.
Arguments Thrown {A} e.

Module UsersService.

(** The rows of the users table. *)
Definition userRows (t : Users) : list User.t := (map_to_list t).*2.

(** [CreateUserData]. *)
Record CreateUserData : Type := mkCreateUserData {
  newUsername : string;
  newEmail : string;
  newPassword : string;
  newFirstName : option string;
  newLastName : option string;
  newAvatar : option string
}.

(** [UpdateUserData]: every field optional. *)
Record UpdateUserData : Type := mkUpdateUserData {
  setFirstName : option string;
  setLastName : option string;
  setAvatar : option string;
  setIsActive : option bool;
  setIsEmailVerified : option bool
}.

(** The unique indexes of the entity on [username] and on [email]: a row
    that an insertion of these two values would collide with. *)
Definition collides (username0 email0 : string) (u : User.t) : bool :=
  String.eqb (User.username u) username0 || String.eqb (User.email u) email0.

(** [create(userData)]: the insertion is refused by the database with code
    23505 when a unique index is violated, which the method turns into a
    [ConflictException]; [newId] and [now] are the uuid and [createdAt] the
    database supplies, the other columns get their defaults. *)
Definition create (userData : CreateUserData) (newId : string) (now : Z)
    (t : Users) : Outcome User.t * Users :=
  if existsb (collides (newUsername userData) (newEmail userData)) (userRows t)
  then (Thrown (ConflictException "Username or email already exists"), t)
  else
    let user := User.mk newId (newUsername userData) (newEmail userData)
                  (newPassword userData) (newFirstName userData)
                  (newLastName userData) (newAvatar userData)
                  true false None now in
    (Returned user, <[newId := user]> t).

(** [findById(id)]. *)
Definition findById (id0 : string) (t : Users) : option User.t := t !! id0.

(** [findByUsernameOrEmail(username, email)]: a row whose [username] is the
    one or whose [email] is the other (which one, when several match, is
    the database's choice; the model takes the first in its order). *)
Definition findByUsernameOrEmail (username0 email0 : string) (t : Users)
    : option User.t :=
  List.find (collides username0 email0) (userRows t).

(** [Object.assign(user, updateData)]. *)
Definition assign (user : User.t) (updateData : UpdateUserData) : User.t :=
  User.mk (User.id user) (User.username user) (User.email user)
    (User.password user)
    (match setFirstName updateData with
     | Some f => Some f | None => User.firstName user end)
    (match setLastName updateData with
     | Some l => Some l | None => User.lastName user end)
    (match setAvatar updateData with
     | Some a => Some a | None => User.avatar user end)
    (default (User.isActive user) (setIsActive updateData))
    (default (User.isEmailVerified user) (setIsEmailVerified updateData))
    (User.lastLoginAt user) (User.createdAt user).

(** [update(id, updateData)]. *)
Definition update (id0 : string) (updateData : UpdateUserData) (t : Users)
    : Outcome User.t * Users :=
  match findById id0 t with
  | None => (Thrown (UserNotFound "User not found"), t)
  | Some user =>
      let user' := assign user updateData in
      (Returned user', <[User.id user' := user']> t)
  end.

Definition setLastLoginAt (at_ : Z) (u : User.t) : User.t :=
  User.mk (User.id u) (User.username u) (User.email u) (User.password u)
    (User.firstName u) (User.lastName u) (User.avatar u) (User.isActive u)
    (User.isEmailVerified u) (Some at_) (User.createdAt u).

(** [updateLastLogin(id)]: one [UPDATE]; no row, no effect. *)
Definition updateLastLogin (id0 : string) (now : Z) (t : Users) : Users :=
  alter (setLastLoginAt now) id0 t.

Definition onlyIsActive (b : bool) : UpdateUserData :=
  mkUpdateUserData None None None (Some b) None.

(** [deactivate(id)], [activate(id)], [verifyEmail(id)]. *)
Definition deactivate (id0 : string) (t : Users) : Outcome User.t * Users :=
  update id0 (onlyIsActive false) t.

Definition activate (id0 : string) (t : Users) : Outcome User.t * Users :=
  update id0 (onlyIsActive true) t.

Definition verifyEmail (id0 : string) (t : Users) : Outcome User.t * Users :=
  update id0 (mkUpdateUserData None None None None (Some true)) t.

End UsersService.

(** The authentication service (auth/auth.service.ts). *)
Module AuthService.

(** [parseInt(digits, 10)] on a string of decimal digits ([None] on any
    other character).  JavaScript numbers are exact below [2^53]; the
    statements about this function keep to at most eight digits, where the
    value and its product with the milliseconds of a day are exact. *)
Fixpoint parseInt (acc : Z) (digits : string) : option Z :=
  match digits with
  | EmptyString => Some acc
  | String ch rest =>
      match Ascii.is_nat ch with
      | Some d => parseInt (10 * acc + Z.of_nat d) rest
      | None => None
      end
  end.

(** The string without its last character, and that character. *)
Fixpoint unsnoc (s : string) : option (string * ascii) :=
  match s with
  | EmptyString => None
  | String ch rest =>
      match unsnoc rest with
      | None => Some (EmptyString, ch)
      | Some (init, final) => Some (String ch init, final)
      end
  end.

Definition isUnit (ch : ascii) : bool :=
  Ascii.eqb ch "s" || Ascii.eqb ch "m" || Ascii.eqb ch "h"
  || Ascii.eqb ch "d".

(** [expiration.match(/^(\d+)([smhd])$/)]: the value of the first group
    and the second group, when the whole string is one or more digits
    followed by one unit letter. *)
Definition matchExpiration (expiration : string) : option (Z * ascii) :=
  match unsnoc expiration with
  | Some (String ch digits, unit_) =>
      if isUnit unit_ then
        match parseInt 0 (String ch digits) with
        | Some value => Some (value, unit_)
        | None => None
        end
      else None
  | _ => None
  end.

(** [parseExpiration(expiration)], in milliseconds. *)
Definition parseExpiration (expiration : string) : Z :=
  match matchExpiration expiration with
  | None => 3600000
  | Some (value, unit_) =>
      if Ascii.eqb unit_ "s" then value * 1000
      else if Ascii.eqb unit_ "m" then value * 60 * 1000
      else if Ascii.eqb unit_ "h" then value * 60 * 60 * 1000
      else if Ascii.eqb unit_ "d" then value * 24 * 60 * 60 * 1000
      else 3600000
  end.


(** [RegisterDto] and [LoginDto] (auth/dto/auth.dto.ts). *)
Record RegisterDto : Type := mkRegisterDto {
  regUsername : string;
  regEmail : string;
  regPassword : string;
  regFirstName : option string;
  regLastName : option string
}.

Record LoginDto : Type := mkLoginDto {
  usernameOrEmail : string;
  loginPassword : string
}.

(** What [sanitizeUser] keeps of a user: everything but the password, and
    the full name. *)
Record SanitizedUser : Type := mkSanitizedUser {
  publicId : string;
  publicUsername : string;
  publicEmail : string;
  publicFirstName : option string;
  publicLastName : option string;
  publicAvatar : option string;
  publicIsActive : bool;
  publicIsEmailVerified : bool;
  publicLastLoginAt : option Z;
  publicCreatedAt : Z;
  publicFullName : string
}.

Record AuthResponse : Type := mkAuthResponse {
  accessToken : string;
  refreshToken : string;
  expiresAt : Z;
  responseUser : SanitizedUser
}.

Section auth.

(** The collaborators: [bcrypt.compare], the two [jwtService.signAsync]
    calls on the payload [(sub, username, email)], [jwtService.verify] on a
    refresh token ([None] when it throws, else the payload's [sub]), and
    the configured [jwt.expiresIn]. *)
Variable compare : string → string → bool.
Variable signAccess signRefresh : string → string → string → string.
Variable verifyRefresh : string → option string.
Variable expiresIn : string.

Definition sanitizeUser (user : User.t) : SanitizedUser :=
  mkSanitizedUser (User.id user) (User.username user) (User.email user)
    (User.firstName user) (User.lastName user) (User.avatar user)
    (User.isActive user) (User.isEmailVerified user) (User.lastLoginAt user)
    (User.createdAt user) (User.fullName user).

(** [generateTokens(user)] and the response built around it; [now] is the
    [new Date()] that [expiresAt] starts from. *)
Definition respond (user : User.t) (now : Z) : AuthResponse :=
  mkAuthResponse
    (signAccess (User.id user) (User.username user) (User.email user))
    (signRefresh (User.id user) (User.username user) (User.email user))
    (now + parseExpiration expiresIn)
    (sanitizeUser user).

(** [register(registerDto)]; [hashedPassword] is what [bcrypt.hash] gave,
    [newId] and [created] what the database gives the row. *)
Definition register (registerDto : RegisterDto) (hashedPassword : string)
    (newId : string) (created now : Z) (t : Users)
    : Outcome AuthResponse * Users :=
  match UsersService.findByUsernameOrEmail (regUsername registerDto)
          (regEmail registerDto) t with
  | Some _ =>
      (Thrown (ConflictException "Username or email already exists"), t)
  | None =>
      let userData :=
        UsersService.mkCreateUserData (regUsername registerDto)
          (regEmail registerDto) hashedPassword (regFirstName registerDto)
          (regLastName registerDto) None in
      match UsersService.create userData newId created t with
      | (Returned user, t') => (Returned (respond user now), t')
      | (Thrown e, t') => (Thrown e, t')
      end
  end.

(** [login(loginDto)]; [stamp] is the [new Date()] of [updateLastLogin]. *)
Definition login (loginDto : LoginDto) (stamp now : Z) (t : Users)
    : Outcome AuthResponse * Users :=
  match UsersService.findByUsernameOrEmail (usernameOrEmail loginDto)
          (usernameOrEmail loginDto) t with
  | None => (Thrown (UnauthorizedException "Invalid credentials"), t)
  | Some user =>
      if negb (User.isActive user) then
        (Thrown (UnauthorizedException "Invalid credentials"), t)
      else if negb (compare (loginPassword loginDto) (User.password user)) then
        (Thrown (UnauthorizedException "Invalid credentials"), t)
      else
        (Returned (respond user now),
         UsersService.updateLastLogin (User.id user) stamp t)
  end.

(** [refreshTokens(refreshToken)]: whatever goes wrong inside the [try]
    comes out as the same [UnauthorizedException]. *)
Definition refreshTokens (token : string) (now : Z) (t : Users)
    : Outcome AuthResponse * Users :=
  match verifyRefresh token with
  | None => (Thrown (UnauthorizedException "Invalid refresh token"), t)
  | Some sub =>
      match UsersService.findById sub t with
      | None => (Thrown (UnauthorizedException "Invalid refresh token"), t)
      | Some user =>
          if negb (User.isActive user) then
            (Thrown (UnauthorizedException "Invalid refresh token"), t)
          else (Returned (respond user now), t)
      end
  end.

(** [validateUser(payload)], on the payload's [sub]. *)
Definition validateUser (sub : string) (t : Users) : option User.t :=
  match UsersService.findById sub t with
  | Some user => if User.isActive user then Some user else None
  | None => None
  end.

End auth.

End AuthService.

(** ** Further views: the users table *)

(** The primary key of a user row is its [id] column. *)
Definition keyedUsers (t : Users) : Prop :=
  ∀ k u, t !! k = Some u → User.id u = k.

(** No two users share a username, and no two share an email. *)
Definition uniqueUsers (t : Users) : Prop :=
  ∀ u v, u ∈ UsersService.userRows t → v ∈ UsersService.userRows t →
         User.username u = User.username v ∨ User.email u = User.email v →
         u = v.

(** Nobody stored is called [username0] or has the email [email0]. *)
Definition available (username0 email0 : string) (t : Users) : Prop :=
  ∀ u, u ∈ UsersService.userRows t →
       User.username u ≠ username0 ∧ User.email u ≠ email0.

(** ** Sample users and collaborators *)

(** Stand-ins for bcrypt, the JWT service and its verification: a hash that
    is the password behind a marker, tokens that name their secret and
    their subject, and one refresh token that verifies, for user [u1]. *)
Definition sameText (password0 hashed : string) : bool :=
  String.eqb ("hash:" +:+ password0) hashed.
Definition accessFor (sub username0 email0 : string) : string :=
  "access." +:+ sub.
Definition refreshFor (sub username0 email0 : string) : string :=
  "refresh." +:+ sub.
Definition verifiesU1 (token : string) : option string :=
  if String.eqb token "refresh.u1" then Some "u1" else None.

Definition alice : User.t :=
  User.mk "u1" "alice" "alice@example.org" "hash:secret" (Some "Alice")
    (Some "Liddell") None true false None 100.
Definition usersAlice : Users := {[ "u1" := alice ]}.
Definition registerBob : AuthService.RegisterDto :=
  AuthService.mkRegisterDto "bob" "bob@example.org" "hunter2" None None.
Definition bob : User.t :=
  User.mk "u2" "bob" "bob@example.org" "hash:hunter2" None None None true
    false None 200.

(** ** Running asynchronous computations *)

Lemma run_bind {A B} (p : Async A) (k : A → Async B) (t : Table) :
  run (bind p k) t =
  match run p t with
  | (Resolved a, t') => run (k a) t'
  | (Rejected e, t') => (Rejected e, t')
  end.
Proof.
  revert t. induction p as [[a|e]|R call k' IH]; intros t; simpl; try done.
  destruct (call t) as [r t']. apply IH.
Qed.

Lemma run_findById (id0 : string) (t : Table) :
  run (findById id0) t = (Resolved (t !! id0), t).
Proof. reflexivity. Qed.

Lemma run_save (c : Comment) (t : Table) :
  run (commentRepository.save c) t = (Resolved c, <[id c := c]> t).
Proof. reflexivity. Qed.

(** A request served alone is the schedule that gives it every turn. *)
Lemma interleave_alone {A} (p : Async A) (t : Table) :
  ∃ n, interleave (replicate n 0%nat) [p] t
       = ([Settle (run p t).1], (run p t).2).
Proof.
  revert t. induction p as [r|R call k IH]; intros t.
  - exists 0%nat. reflexivity.
  - simpl. destruct (call t) as [r t'] eqn:Hcall.
    destruct (IH r t') as [n Hn]. exists (S n). simpl. by rewrite Hcall.
Qed.

(** ** The mutation policy *)

(** C4, as the code has it: the three window tests are strict.  A comment is
    editable iff strictly less than fifteen minutes have passed since
    [createdAt] and it is not soft-deleted; deletable iff strictly less than
    fifteen minutes have passed since [createdAt], whatever [isDeleted];
    restorable iff it is soft-deleted, [deletedAt] is set and strictly less
    than fifteen minutes have passed since [deletedAt]. *)
Theorem mutation_policy_strict_window (c : Comment) (now : Z) :
  (isEditable c now = true
     ↔ now - createdAt c < fifteenMinutes ∧ isDeleted c = false)
  ∧ (isDeletable c now = true ↔ now - createdAt c < fifteenMinutes)
  ∧ (isRestorable c now = true
     ↔ isDeleted c = true
       ∧ ∃ d, deletedAt c = Some d ∧ now - d < fifteenMinutes).
Proof.
  unfold isEditable, isDeletable, isRestorable. split; [|split].
  - rewrite andb_true_iff, Z.ltb_lt, negb_true_iff. split; intros []; split; (lia || done).
  - rewrite Z.ltb_lt. lia.
  - destruct (isDeleted c); [|split; [done | by intros []]].
    destruct (deletedAt c) as [d|].
    + rewrite Z.ltb_lt. split.
      * intros H. split; [done|]. exists d. split; [done | lia].
      * intros [_ (d' & [= <-] & H)]. lia.
    + split; [done | by intros [_ (d & ? & _)]].
Qed.

(** C4 as stated fails exactly fifteen minutes after the reference instant:
    the stated condition [now − createdAt ≤ 15 min] (resp. [now − deletedAt ≤
    15 min]) holds there, and none of the three getters is true. *)
Lemma mutation_policy_boundary :
  let now := 900000 in
  ¬ (isEditable (sample false None) now = true
       ↔ now - createdAt (sample false None) ≤ 15 * 60 * 1000
         ∧ isDeleted (sample false None) = false)
  ∧ ¬ (isDeletable (sample false None) now = true
       ↔ now - createdAt (sample false None) ≤ 15 * 60 * 1000)
  ∧ ¬ (isRestorable (sample true (Some 0)) now = true
       ↔ isDeleted (sample true (Some 0)) = true
         ∧ ∃ d, deletedAt (sample true (Some 0)) = Some d
                ∧ now - d ≤ 15 * 60 * 1000).
Proof.
  cbv zeta. repeat split.
  - intros [_ H]. assert (isEditable (sample false None) 900000 = true) as E.
    { apply H. simpl. split; [lia | done]. }
    vm_compute in E. discriminate.
  - intros [_ H]. assert (isDeletable (sample false None) 900000 = true) as E.
    { apply H. simpl. lia. }
    vm_compute in E. discriminate.
  - intros [_ H].
    assert (isRestorable (sample true (Some 0)) 900000 = true) as E.
    { apply H. simpl. split; [done|]. exists 0. split; [done | lia]. }
    vm_compute in E. discriminate.
Qed.

(** ** Edit, soft-delete and restore *)

(** The three mutations open alike: look the row up, give up if it is
    missing, refuse a requester who is not the author. *)
Ltac open_mutation t id0 user c :=
  rewrite run_bind, run_findById;
  destruct (t !! id0) as [c|]; [|done];
  destruct (String.eqb (authorId c) user); [|done];
  simpl negb; cbv iota.

(** What [update] does, case by case.  The test of [isDeleted] after the
    test of [isEditable] never fires: [isEditable] is already false for a
    soft-deleted comment. *)
Lemma run_update (id0 text user : string) (now stamp : Z) (t : Table) :
  run (update id0 text user now stamp) t =
  match t !! id0 with
  | None => (Rejected (NotFoundException "Comment not found"), t)
  | Some c =>
      if negb (String.eqb (authorId c) user) then
        (Rejected (ForbiddenException "You can only edit your own comments"), t)
      else if negb (isEditable c now) then
        (Rejected (ForbiddenException
                     "Comment can only be edited within 15 minutes of posting"),
         t)
      else
        let c' := set_edit (if isEdited c then originalContent c
                            else Some (content c)) text stamp c in
        (Resolved c', <[id c := c']> t)
  end.
Proof.
  unfold update. open_mutation t id0 user c.
  unfold isEditable.
  destruct (now - fifteenMinutes <? createdAt c); [|done].
  destruct (isDeleted c) eqn:Hdel; [done|]. simpl.
  by destruct (isEdited c).
Qed.

Lemma run_delete (id0 user : string) (now stamp : Z) (t : Table) :
  run (delete id0 user now stamp) t =
  match t !! id0 with
  | None => (Rejected (NotFoundException "Comment not found"), t)
  | Some c =>
      if negb (String.eqb (authorId c) user) then
        (Rejected (ForbiddenException "You can only delete your own comments"),
         t)
      else if negb (isDeletable c now) then
        (Rejected (ForbiddenException
                     "Comment can only be deleted within 15 minutes of posting"),
         t)
      else (Resolved (set_deleted stamp c), <[id c := set_deleted stamp c]> t)
  end.
Proof.
  unfold delete. open_mutation t id0 user c.
  by destruct (isDeletable c now).
Qed.

Lemma run_restore (id0 user : string) (now stamp : Z) (t : Table) :
  run (restore id0 user now stamp) t =
  match t !! id0 with
  | None => (Rejected (NotFoundException "Comment not found"), t)
  | Some c =>
      if negb (String.eqb (authorId c) user) then
        (Rejected (ForbiddenException "You can only restore your own comments"),
         t)
      else if negb (isRestorable c now) then
        (Rejected (ForbiddenException
                     "Comment can only be restored within 15 minutes of deletion"),
         t)
      else (Resolved (set_restored stamp c), <[id c := set_restored stamp c]> t)
  end.
Proof.
  unfold restore. open_mutation t id0 user c.
  by destruct (isRestorable c now).
Qed.

(** C6: a requester who is not the author is refused with [Forbidden] by
    edit, delete and restore alike, whatever the instant and whatever the
    comment's flags, and the table is left as it was. *)
Theorem foreign_requester_forbidden (t : Table) (id0 : string) (c : Comment)
    (requester text : string) (now stamp : Z) :
  t !! id0 = Some c →
  requester ≠ authorId c →
  (∃ e, run (update id0 text requester now stamp) t = (Rejected e, t)
        ∧ errorKind e = Forbidden)
  ∧ (∃ e, run (delete id0 requester now stamp) t = (Rejected e, t)
          ∧ errorKind e = Forbidden)
  ∧ (∃ e, run (restore id0 requester now stamp) t = (Rejected e, t)
          ∧ errorKind e = Forbidden).
Proof.
  intros Hc Hne.
  assert (String.eqb (authorId c) requester = false) as Heq.
  { apply String.eqb_neq. congruence. }
  rewrite run_update, run_delete, run_restore, Hc, Heq. simpl.
  repeat split; eexists; split; reflexivity.
Qed.

(** Edit of a soft-deleted comment by its own author: always the window
    refusal, a [Forbidden], at every instant. *)
Lemma update_deleted_forbidden (t : Table) (id0 : string) (c : Comment)
    (text : string) (now stamp : Z) :
  t !! id0 = Some c →
  isDeleted c = true →
  run (update id0 text (authorId c) now stamp) t
  = (Rejected (ForbiddenException
                 "Comment can only be edited within 15 minutes of posting"), t).
Proof.
  intros Hc Hdel. rewrite run_update, Hc, String.eqb_refl. simpl.
  unfold isEditable. rewrite Hdel, andb_false_r. reflexivity.
Qed.

(** No call of [update] is ever rejected with the [BadRequestException] that
    the specification files under [InvalidState]. *)
Lemma update_never_invalid_state (t : Table) (id0 text user : string)
    (now stamp : Z) (e : Exception) :
  (run (update id0 text user now stamp) t).1 = Rejected e →
  errorKind e ≠ InvalidState.
Proof.
  rewrite run_update. destruct (t !! id0) as [c|]; simpl.
  - destruct (negb (String.eqb (authorId c) user)); simpl;
      [by intros [= <-]|].
    destruct (negb (isEditable c now)); simpl; [by intros [= <-] | done].
  - by intros [= <-].
Qed.

(** C5: requested by the author inside the relevant window, edit sets
    [isEdited] and [editedAt], replaces [content] and captures
    [originalContent] on the first edit only; delete sets [isDeleted] and
    [deletedAt]; restore clears [isDeleted] and [deletedAt] and sets
    [restoredAt]; each touches nothing else.  After two edits of a comment
    never edited before, [originalContent] is the content it was created with
    and [content] the latest text. *)
Theorem author_mutations (t : Table) (id0 : string) (c : Comment)
    (now stamp : Z) :
  t !! id0 = Some c →
  id c = id0 →
  (∀ text, isEditable c now = true →
     ∃ c', run (update id0 text (authorId c) now stamp) t
           = (Resolved c', <[id0 := c']> t)
       ∧ isEdited c' = true ∧ editedAt c' = Some stamp ∧ content c' = text
       ∧ originalContent c'
         = (if isEdited c then originalContent c else Some (content c))
       ∧ sameIdentity c c' ∧ sameDeletion c c'
       ∧ restoredAt c' = restoredAt c)
  ∧ (isDeletable c now = true →
     ∃ c', run (delete id0 (authorId c) now stamp) t
           = (Resolved c', <[id0 := c']> t)
       ∧ isDeleted c' = true ∧ deletedAt c' = Some stamp
       ∧ sameIdentity c c' ∧ sameContent c c'
       ∧ restoredAt c' = restoredAt c)
  ∧ (isRestorable c now = true →
     ∃ c', run (restore id0 (authorId c) now stamp) t
           = (Resolved c', <[id0 := c']> t)
       ∧ isDeleted c' = false ∧ deletedAt c' = None
       ∧ restoredAt c' = Some stamp
       ∧ sameIdentity c c' ∧ sameContent c c')
  ∧ (∀ text1 text2 now2 stamp2,
       isEdited c = false →
       isEditable c now = true → isEditable c now2 = true →
       ∃ c1 c2 t1 t2,
         run (update id0 text1 (authorId c) now stamp) t = (Resolved c1, t1)
         ∧ run (update id0 text2 (authorId c) now2 stamp2) t1
           = (Resolved c2, t2)
         ∧ t2 !! id0 = Some c2
         ∧ originalContent c2 = Some (content c)
         ∧ content c2 = text2 ∧ isEdited c2 = true
         ∧ editedAt c2 = Some stamp2).
Proof.
  intros Hc Hid. split; [|split; [|split]].
  - intros text He. eexists. rewrite run_update, Hc, String.eqb_refl, He.
    simpl. rewrite Hid. split; [reflexivity|]. by repeat split.
  - intros He. eexists. rewrite run_delete, Hc, String.eqb_refl, He.
    simpl. rewrite Hid. split; [reflexivity|]. by repeat split.
  - intros He. eexists. rewrite run_restore, Hc, String.eqb_refl, He.
    simpl. rewrite Hid. split; [reflexivity|]. by repeat split.
  - intros text1 text2 now2 stamp2 Hfresh He1 He2.
    set (c1 := set_edit (Some (content c)) text1 stamp c).
    set (c2 := set_edit (Some (content c)) text2 stamp2 c1).
    exists c1, c2, (<[id0 := c1]> t), (<[id0 := c2]> (<[id0 := c1]> t)).
    split; [|split].
    + by rewrite run_update, Hc, String.eqb_refl, He1, Hfresh, Hid.
    + rewrite run_update, lookup_insert_eq. simpl.
      rewrite String.eqb_refl. simpl.
      replace (isEditable c1 now2) with (isEditable c now2) by done.
      by rewrite He2, Hid.
    + by rewrite lookup_insert_eq.
Qed.

Lemma sameIdentity_refl (c : Comment) : sameIdentity c c.
Proof. by repeat split. Qed.

Lemma keepsWriteOnce_rejected (e : Exception) (id0 : string) (t : Table) :
  keepsWriteOnce (Rejected e, t) id0 t.
Proof.
  repeat split; try done. intros c Hc. exists c.
  split; [done|]. split; [apply sameIdentity_refl | done].
Qed.

Lemma keepsWriteOnce_saved (c c' : Comment) (id0 : string) (t : Table) :
  keyed t →
  t !! id0 = Some c →
  sameIdentity c c' →
  childrenCount c' = childrenCount c →
  createdAt c' = createdAt c →
  keepsWriteOnce (Resolved c', <[id c := c']> t) id0 t.
Proof.
  intros Hkeyed Hc Hsame Hcount Hcreated. rewrite (Hkeyed _ _ Hc).
  split; [|split; [|split]]; simpl.
  - intros k Hk. by rewrite lookup_insert_ne.
  - congruence.
  - intros c0 Hc0. exists c'. rewrite lookup_insert_eq.
    assert (c0 = c) as -> by congruence. done.
  - intros r [= <-]. rewrite lookup_insert_eq. split; [done|]. by exists c.
Qed.

(** C9: whatever its outcome, an edit, a soft-delete or a restore leaves
    [id], [authorId], [parentId], [depth] and [path] of the comment as they
    were (and its counter and creation time with them), leaves every other
    row untouched, adds no row, and returns, when it succeeds, the comment
    as now stored. *)
Theorem write_once_columns (t : Table) (id0 text user : string)
    (now stamp : Z) :
  keyed t →
  keepsWriteOnce (run (update id0 text user now stamp) t) id0 t
  ∧ keepsWriteOnce (run (delete id0 user now stamp) t) id0 t
  ∧ keepsWriteOnce (run (restore id0 user now stamp) t) id0 t.
Proof.
  intros Hkeyed. rewrite run_update, run_delete, run_restore.
  destruct (t !! id0) as [c|] eqn:Hc;
    [|split; [|split]; apply keepsWriteOnce_rejected].
  destruct (negb (String.eqb (authorId c) user));
    [split; [|split]; apply keepsWriteOnce_rejected|].
  split; [|split].
  - destruct (negb (isEditable c now)); [apply keepsWriteOnce_rejected|].
    by apply keepsWriteOnce_saved.
  - destruct (negb (isDeletable c now)); [apply keepsWriteOnce_rejected|].
    by apply keepsWriteOnce_saved.
  - destruct (negb (isRestorable c now)); [apply keepsWriteOnce_rejected|].
    by apply keepsWriteOnce_saved.
Qed.

(** ** Creation *)

Lemma truthy_spec (s : string) : truthy s = true ↔ s ≠ "".
Proof.
  unfold truthy. rewrite negb_true_iff. apply String.eqb_neq.
Qed.

(** [create] without a [parentId]. *)
Lemma run_create_root notifier (content0 authorId0 newId : string) (now : Z)
    (t : Table) :
  let c := commentRepository.create content0 authorId0 None 0 "" newId now in
  run (create notifier content0 authorId0 None newId now) t
  = (Resolved (Some c), <[newId := c]> t).
Proof. simpl. by rewrite lookup_insert_eq. Qed.

(** [create] with the empty string as [parentId]: [if (parentId)] skips the
    lookup of the parent, and the database refuses the row. *)
Lemma run_create_empty notifier (content0 authorId0 newId : string) (now : Z)
    (t : Table) :
  run (create notifier content0 authorId0 (Some "") newId now) t
  = (Rejected (QueryFailedError "invalid input syntax for type uuid"), t).
Proof. reflexivity. Qed.

(** [create] with a [parentId], case by case. *)
Lemma run_create_reply notifier (content0 authorId0 pid newId : string)
    (now : Z) (t : Table) :
  truthy pid = true →
  run (create notifier content0 authorId0 (Some pid) newId now) t =
  match t !! pid with
  | None => (Rejected (NotFoundException "Parent comment not found"), t)
  | Some parent =>
      if isDeleted parent then
        (Rejected (BadRequestException "Cannot reply to deleted comment"), t)
      else
        let c := commentRepository.create content0 authorId0 (Some pid)
                   (depth parent + 1)
                   (if truthy (path parent)
                    then path parent +:+ "." +:+ id parent else id parent)
                   newId now in
        let t' := <[newId := c]>
                    (alter (set_childrenCount (childrenCount parent + 1)) pid
                       t) in
        if negb (String.eqb (authorId parent) authorId0) then
          match notifier (authorId parent) newId authorId0 with
          | None => (Resolved (Some c), t')
          | Some e => (Rejected e, t')
          end
        else (Resolved (Some c), t')
  end.
Proof.
  intros Hpid. unfold create. rewrite Hpid. simpl.
  destruct (t !! pid) as [parent|]; [|done]. simpl.
  destruct (isDeleted parent); [done|]. simpl. rewrite Hpid. simpl.
  destruct (negb (String.eqb (authorId parent) authorId0)); simpl.
  - destruct (notifier _ _ _); simpl; [done|]. by rewrite lookup_insert_eq.
  - by rewrite lookup_insert_eq.
Qed.

(** The primary-key invariant holds of the empty table and is kept by every
    write of the service. *)
Lemma keyed_empty : keyed ∅.
Proof. intros k c. by rewrite lookup_empty. Qed.

Lemma keyed_insert (t : Table) (c : Comment) :
  keyed t → keyed (<[id c := c]> t).
Proof.
  intros H k c'. destruct (decide (id c = k)) as [<-|Hne].
  - rewrite lookup_insert_eq. congruence.
  - rewrite lookup_insert_ne by done. apply H.
Qed.

Lemma keyed_alter (t : Table) (k0 : string) (n : Z) :
  keyed t → keyed (alter (set_childrenCount n) k0 t).
Proof.
  intros H k c'. rewrite lookup_alter. case_decide as Hk.
  - subst k0. destruct (t !! k) as [c|] eqn:Hc; simpl; [|done].
    intros [= <-]. simpl. by apply H.
  - apply H.
Qed.

Lemma keyed_create notifier (content0 authorId0 : string)
    (parentId0 : option string) (newId : string) (now : Z) (t : Table) :
  keyed t →
  keyed (run (create notifier content0 authorId0 parentId0 newId now) t).2.
Proof.
  intros H.
  pose proof (keyed_insert) as Hins.
  destruct parentId0 as [pid|].
  - destruct (truthy pid) eqn:Hpid.
    + rewrite run_create_reply by done.
      destruct (t !! pid) as [parent|]; [|done].
      destruct (isDeleted parent); [done|]. cbv zeta.
      set (c := commentRepository.create _ _ _ _ _ _ _).
      assert (keyed (<[newId := c]>
                (alter (set_childrenCount (childrenCount parent + 1)) pid t))).
      { apply (Hins _ c). by apply keyed_alter. }
      destruct (negb _); [destruct (notifier _ _ _)|]; done.
    + assert (pid = "") as ->.
      { unfold truthy in Hpid. apply negb_false_iff in Hpid.
        by apply String.eqb_eq. }
      by rewrite run_create_empty.
  - rewrite run_create_root. simpl.
    apply (Hins _ (commentRepository.create _ _ _ _ _ _ _)), H.
Qed.

(** C3: [create] assigns ancestry.  Without a parent id the comment is
    stored as a root: depth 0, empty path.  With the id of no stored comment, creation
    fails with [NotFound]; with the id of a soft-deleted comment, with
    [InvalidState]; in both cases the table is untouched.  Otherwise the
    comment is stored with [depth = parent.depth + 1] and with path
    [parent.id] when the parent's path is empty, [parent.path + "." +
    parent.id] when it is not, and it is what the call returns, unless the
    reply notification was due and rejected. *)
Theorem create_assigns_ancestry notifier (content0 authorId0 : string)
    (parentId0 : option string) (newId : string) (now : Z) (t : Table) :
  let outcome := run (create notifier content0 authorId0 parentId0 newId now) t
  in
  (parentId0 = None →
     ∃ c, outcome = (Resolved (Some c), <[newId := c]> t)
          ∧ depth c = 0 ∧ path c = "" ∧ parentId c = None)
  ∧ (∀ pid, parentId0 = Some pid → pid ≠ "" → t !! pid = None →
       ∃ e, outcome = (Rejected e, t) ∧ errorKind e = NotFound)
  ∧ (∀ pid parent, parentId0 = Some pid → pid ≠ "" →
       t !! pid = Some parent → isDeleted parent = true →
       ∃ e, outcome = (Rejected e, t) ∧ errorKind e = InvalidState)
  ∧ (∀ pid parent, parentId0 = Some pid → pid ≠ "" →
       t !! pid = Some parent → isDeleted parent = false →
       ∃ c, outcome.2 !! newId = Some c
            ∧ depth c = depth parent + 1
            ∧ path c = (if String.eqb (path parent) "" then id parent
                        else path parent +:+ "." +:+ id parent)
            ∧ (outcome.1 = Resolved (Some c)
               ∨ ∃ e, outcome.1 = Rejected e
                      ∧ authorId parent ≠ authorId0
                      ∧ notifier (authorId parent) newId authorId0 = Some e)).
Proof.
  cbv zeta. split; [|split; [|split]].
  - intros ->. eexists. rewrite run_create_root. done.
  - intros pid -> Hpid%truthy_spec Hnone.
    rewrite run_create_reply, Hnone by done. by eexists.
  - intros pid parent -> Hpid%truthy_spec Hparent Hdel.
    rewrite run_create_reply, Hparent, Hdel by done. by eexists.
  - intros pid parent -> Hpid%truthy_spec Hparent Hdel.
    rewrite run_create_reply, Hparent, Hdel by done. cbv zeta.
    set (c := commentRepository.create _ _ _ _ _ _ _).
    assert (path c = (if String.eqb (path parent) "" then id parent
                      else path parent +:+ "." +:+ id parent)) as Hpath.
    { simpl. unfold truthy. by destruct (String.eqb (path parent) ""). }
    exists c.
    destruct (String.eqb (authorId parent) authorId0) eqn:Hauthor; simpl.
    + rewrite lookup_insert_eq. repeat split; try done. by left.
    + apply String.eqb_neq in Hauthor.
      destruct (notifier _ _ _) as [e|] eqn:Hn; simpl;
        rewrite lookup_insert_eq; repeat split; try done.
      * right. by exists e.
      * by left.
Qed.

(** C2 as stated fails: with the notification collaborator down, a reply by
    [u2] to the live comment [A] of [u1] makes [create] reject. *)
Lemma notification_failure_fails_creation :
  tableA !! "A" = Some commentA0
  ∧ isDeleted commentA0 = false
  ∧ authorId commentA0 ≠ "u2"
  ∧ ¬ ∃ c, (run (create down "reply" "u2" (Some "A") "B" 200) tableA).1
           = Resolved c.
Proof.
  repeat split; [done|]. intros [c H]. vm_compute in H. discriminate.
Qed.

(** C2, as the code has it: the notification call is awaited with no
    handler.  When the reply notification is due and the collaborator
    rejects, [create] rejects with the collaborator's error; the reply saved
    before the call and the parent's counter written before it stay in the
    table. *)
Theorem notification_failure_propagates notifier
    (content0 authorId0 pid newId : string) (now : Z) (t : Table)
    (parent : Comment) (e : Exception) :
  pid ≠ "" →
  t !! pid = Some parent →
  isDeleted parent = false →
  authorId parent ≠ authorId0 →
  notifier (authorId parent) newId authorId0 = Some e →
  ∃ c, run (create notifier content0 authorId0 (Some pid) newId now) t
       = (Rejected e,
          <[newId := c]>
            (alter (set_childrenCount (childrenCount parent + 1)) pid t))
       ∧ id c = newId ∧ content c = content0 ∧ authorId c = authorId0
       ∧ parentId c = Some pid ∧ isDeleted c = false.
Proof.
  intros Hpid%truthy_spec Hparent Hdel Hauthor%String.eqb_neq Hn.
  eexists. rewrite run_create_reply, Hparent, Hdel, Hauthor by done.
  simpl. rewrite Hn. done.
Qed.

(** ** The sample thread *)

Lemma tableABC_rows :
  tableABC !! "A" = Some commentA ∧ tableABC !! "B" = Some commentB
  ∧ tableABC !! "C" = Some commentC.
Proof. by vm_compute. Qed.

Lemma tableDeleted_rows :
  tableDeleted !! "A" = Some commentA ∧ tableDeleted !! "B" = Some commentB
  ∧ tableDeleted !! "C" = Some deletedC.
Proof. by vm_compute. Qed.

Lemma keyed_tableABC : keyed tableABC.
Proof. do 3 apply keyed_create. apply keyed_empty. Qed.

(** C7, evaluated: [C] was soft-deleted by its author [u1] 101 ms after it
    was posted; one millisecond later [u1] edits it.  The call is rejected
    with the window refusal, a [ForbiddenException], not with the
    [BadRequestException] ("Cannot edit deleted comment") written two lines
    below it in [update]. *)
Theorem edit_of_deleted_is_forbidden :
  tableDeleted !! "C" = Some deletedC
  ∧ isDeleted deletedC = true
  ∧ authorId deletedC = "u1"
  ∧ 402 - createdAt deletedC < fifteenMinutes
  ∧ run (update "C" "second thoughts" "u1" 402 403) tableDeleted
    = (Rejected (ForbiddenException
                   "Comment can only be edited within 15 minutes of posting"),
       tableDeleted)
  ∧ errorKind (ForbiddenException
                 "Comment can only be edited within 15 minutes of posting")
    ≠ InvalidState.
Proof.
  split; [apply tableDeleted_rows|].
  split; [done|]. split; [done|]. split; [done|]. split; [|done].
  apply (update_deleted_forbidden tableDeleted "C" deletedC);
    [apply tableDeleted_rows | done].
Qed.

(** ** The assembler *)

(** C8, evaluated on the thread [A] ← [B] ← [C]: in the subtree of [A], the
    direct children of [A] are [B] and [C]; the grandchild [C], whose
    [parentId] is [B], is attached under [B] and once more directly under
    [A], so it occurs twice. *)
Theorem nested_subtree_repeats_descendants (n : nat) :
  let tree := Nest commentA [Nest commentB [Nest commentC []];
                             Nest commentC []] in
  run (findByIdWithChildren (3 + n) "A") tableABC
  = (Resolved (Some tree), tableABC)
  ∧ comment_of <$> children_of tree = [commentB; commentC]
  ∧ parentId commentC = Some "B"
  ∧ parentId commentC ≠ Some (id commentA)
  ∧ occurrences tree = [commentA; commentB; commentC; commentC].
Proof.
  cbv zeta. split; [by vm_compute|]. by repeat split.
Qed.

(** The direct children the assembler attaches under [parentId0] are the
    comments of the list that name [parentId0] anywhere in their path. *)
Lemma buildNestedStructure_children (stack : nat) (cs : list Comment)
    (parentId0 : string) (nested : list Nested) :
  buildNestedStructure stack cs parentId0 = Some nested →
  comment_of <$> nested = filter (λ c, namesAncestor parentId0 c = true) cs.
Proof.
  destruct stack as [|stack]; simpl; [done|]. intros H.
  eapply mapM_fmap_Some_inv; [exact H|]. intros x y. cbv beta.
  destruct (buildNestedStructure stack cs (id x)); simpl; [|done].
  by intros [= <-].
Qed.

(** On paths that do not loop and are at most [M] characters long, a call
    stack deeper than [M + 1] is enough for the assembler. *)
Lemma buildNestedStructure_total (cs : list Comment) (M : nat) :
  ancestorsShorter cs →
  (∀ c, c ∈ cs → (String.length (path c) ≤ M)%nat) →
  ∀ stack parentId0, (M + 1 < stack)%nat →
    is_Some (buildNestedStructure stack cs parentId0).
Proof.
  intros Hacyclic Hwidth.
  assert (∀ n stack pid,
            (∀ c, c ∈ cs → namesAncestor pid c = true →
                  (M - String.length (path c) < n)%nat) →
            (n < stack)%nat →
            is_Some (buildNestedStructure stack cs pid)) as Hgen.
  { induction n as [|n IH]; intros stack pid Hn Hstack;
      (destruct stack as [|stack]; [lia|]); simpl;
      apply mapM_is_Some_2, Forall_forall;
      intros child [Hnames Hin]%list_elem_of_filter.
    - specialize (Hn child Hin Hnames). lia.
    - simpl. apply fmap_is_Some, IH; [|lia].
      intros g Hg [_ Hseg%bool_decide_eq_true]%andb_true_iff.
      specialize (Hn child Hin Hnames).
      specialize (Hacyclic g child Hg Hin Hseg).
      specialize (Hwidth g Hg). lia. }
  intros stack pid Hstack. apply (Hgen (M + 1)%nat); [|done].
  intros c _ _. lia.
Qed.

(** ** Queries *)

Lemma elem_of_rows (t : Table) (c : Comment) :
  keyed t → (c ∈ rows t ↔ t !! id c = Some c).
Proof.
  intros Hkeyed. unfold rows. rewrite list_elem_of_fmap. split.
  - intros ([k c'] & -> & Hin%elem_of_map_to_list). simpl.
    by rewrite (Hkeyed _ _ Hin).
  - intros Hc. exists (id c, c). split; [done|]. by apply elem_of_map_to_list.
Qed.

Lemma elem_of_orderByCreatedAtASC (l : list Comment) (c : Comment) :
  c ∈ orderByCreatedAtASC l ↔ c ∈ l.
Proof. unfold orderByCreatedAtASC. by rewrite merge_sort_Permutation. Qed.

Lemma elem_of_orderByCreatedAtDESC (l : list Comment) (c : Comment) :
  c ∈ orderByCreatedAtDESC l ↔ c ∈ l.
Proof. unfold orderByCreatedAtDESC. by rewrite merge_sort_Permutation. Qed.

Lemma run_findByIdWithChildren (stack : nat) (id0 : string) (t : Table) :
  run (findByIdWithChildren stack id0) t =
  match t !! id0 with
  | None => (Resolved None, t)
  | Some root =>
      match buildNestedStructure stack (subtreeRows id0 root t) (id root) with
      | Some nested => (Resolved (Some (Nest root nested)), t)
      | None => (Rejected (RangeError "Maximum call stack size exceeded"), t)
      end
  end.
Proof.
  unfold findByIdWithChildren. simpl.
  destruct (t !! id0) as [root|]; [|done].
  simpl. fold (subtreeRows id0 root t).
  by destruct (buildNestedStructure _ _ _).
Qed.

Lemma run_getThreadByComment (commentId : string) (t : Table) :
  run (getThreadByComment commentId) t =
  match t !! commentId with
  | None => (Rejected (NotFoundException "Comment not found"), t)
  | Some comment => (Resolved (threadRows (threadRoot commentId comment) t), t)
  end.
Proof.
  unfold getThreadByComment. rewrite run_bind, run_findById.
  by destruct (t !! commentId).
Qed.

(** From page 1 on, [skip] is not negative. *)
Lemma findMany_skip (page1 limit1 : nat) :
  (1 ≤ page1)%nat →
  ((Z.of_nat page1 - 1) * Z.of_nat limit1 <? 0) = false
  ∧ Z.to_nat ((Z.of_nat page1 - 1) * Z.of_nat limit1)
    = ((page1 - 1) * limit1)%nat.
Proof.
  intros Hpage.
  replace (Z.of_nat page1 - 1) with (Z.of_nat (page1 - 1)) by lia.
  rewrite <- Nat2Z.inj_mul.
  split; [apply Z.ltb_ge, Nat2Z.is_nonneg | apply Nat2Z.id].
Qed.

Lemma run_findMany (page0 limit0 : option nat) (authorId0 : option string)
    (parentId0 : option (option string)) (includeDeleted0 : option bool)
    (t : Table) :
  let matching := filter (λ c, findManyWhere (default false includeDeleted0)
                                 authorId0 parentId0 c = true) (rows t) in
  let skip_ := (Z.of_nat (default 1%nat page0) - 1)
               * Z.of_nat (default 10%nat limit0) in
  let from := drop (Z.to_nat skip_) (orderByCreatedAtDESC matching) in
  run (findMany page0 limit0 authorId0 parentId0 includeDeleted0) t =
  if skip_ <? 0 then
    (Rejected (QueryFailedError "OFFSET must not be negative"), t)
  else
    (Resolved
       {| comments := match default 10%nat limit0 with
                      | O => from
                      | S _ => take (default 10%nat limit0) from
                      end;
          total := length matching;
          page := default 1%nat page0;
          limit := default 10%nat limit0 |}, t).
Proof.
  cbv zeta. unfold findMany, commentRepository.getManyAndCountDESC. simpl.
  by destruct (_ <? 0).
Qed.

(** [findMany] for a page and a page size of at least one. *)
Lemma run_findMany_page (page0 limit0 : option nat)
    (authorId0 : option string) (parentId0 : option (option string))
    (includeDeleted0 : option bool) (t : Table) :
  (1 ≤ default 1 page0)%nat →
  (1 ≤ default 10 limit0)%nat →
  let matching := filter (λ c, findManyWhere (default false includeDeleted0)
                                 authorId0 parentId0 c = true) (rows t) in
  run (findMany page0 limit0 authorId0 parentId0 includeDeleted0) t =
  (Resolved
     {| comments := take (default 10%nat limit0)
                      (drop ((default 1%nat page0 - 1) * default 10%nat limit0)
                         (orderByCreatedAtDESC matching));
        total := length matching;
        page := default 1%nat page0;
        limit := default 10%nat limit0 |}, t).
Proof.
  intros Hpage Hlimit. cbv zeta. rewrite run_findMany. cbv zeta.
  destruct (findMany_skip _ (default 10%nat limit0) Hpage) as [-> ->].
  by destruct (default 10%nat limit0); [lia|].
Qed.

Lemma elem_of_subtreeRows (id0 : string) (root c : Comment) (t : Table) :
  keyed t →
  c ∈ subtreeRows id0 root t
  ↔ t !! id c = Some c
    ∧ like_prefix (subtreePrefix root) (path c) = true ∧ id c ≠ id0.
Proof.
  intros Hkeyed. unfold subtreeRows.
  rewrite elem_of_orderByCreatedAtASC, list_elem_of_filter, andb_true_iff,
    negb_true_iff, String.eqb_neq, elem_of_rows by done.
  tauto.
Qed.

Lemma elem_of_threadRows (rootId : string) (c : Comment) (t : Table) :
  keyed t →
  c ∈ threadRows rootId t
  ↔ t !! id c = Some c
    ∧ (id c = rootId ∨ like_prefix rootId (path c) = true).
Proof.
  intros Hkeyed. unfold threadRows.
  rewrite elem_of_orderByCreatedAtASC, list_elem_of_filter, orb_true_iff,
    String.eqb_eq, elem_of_rows by done.
  tauto.
Qed.

Lemma elem_of_page (l : list Comment) (skip_ take_ : nat) (c : Comment) :
  c ∈ match take_ with
      | O => drop skip_ l
      | S _ => take take_ (drop skip_ l)
      end →
  c ∈ l.
Proof.
  intros Hin.
  assert (c ∈ drop skip_ l) as (i & Hi)%list_elem_of_lookup_1.
  { destruct take_; [done|].
    apply elem_of_take in Hin as (i & Hi & _).
    by eapply list_elem_of_lookup_2. }
  rewrite lookup_drop in Hi. by eapply list_elem_of_lookup_2.
Qed.


(** ** Concurrent replies *)

(** C1, evaluated: two replies to [A] are created concurrently.  When the
    second request looks its parent up before the first has written the
    counter, both write [0 + 1]: both creations succeed, [A] has two direct
    children, and [A.childrenCount] is 1.  Served one after the other, the
    same two requests leave it at 2. *)
Theorem concurrent_replies_lose_an_increment :
  (interleave bothLookupsFirst [replyB; replyC] tableA).1
  = [Settle (Resolved (Some settledB)); Settle (Resolved (Some settledC))]
  ∧ directChildren "A" (interleave bothLookupsFirst [replyB; replyC] tableA).2
    = [settledC; settledB]
  ∧ childrenCount
    <$> (interleave bothLookupsFirst [replyB; replyC] tableA).2 !! "A"
    = Some 1
  ∧ childrenCount
    <$> (interleave oneAfterTheOther [replyB; replyC] tableA).2 !! "A"
    = Some 2.
Proof. by vm_compute. Qed.


(** *** Any number of concurrent replies *)

Lemma interleave_app {A} (s1 s2 : list nat) (tasks : list (Async A))
    (t : Table) :
  interleave (s1 ++ s2) tasks t
  = interleave s2 (interleave s1 tasks t).1 (interleave s1 tasks t).2.
Proof.
  revert tasks t. induction s1 as [|i s1 IH]; intros tasks t; simpl; [done|].
  destruct (tasks !! i) as [p|]; [|apply IH].
  destruct (step p t) as [p' t']. apply IH.
Qed.

Lemma interleave_replicate {A} (n i : nat) (tasks : list (Async A))
    (p : Async A) (t : Table) :
  tasks !! i = Some p →
  interleave (replicate n i) tasks t
  = (<[i := (steps n p t).1]> tasks, (steps n p t).2).
Proof.
  revert tasks p t. induction n as [|n IH]; intros tasks p t Hp; simpl.
  - by rewrite list_insert_id.
  - rewrite Hp. destruct (step p t) as [p' t'].
    rewrite (IH _ p') by (apply list_lookup_insert_eq; by eapply lookup_lt_Some).
    by rewrite list_insert_insert_eq.
Qed.

(** The first turn of a reply request is its lookup of the parent; it
    changes nothing in the table. *)
Lemma step_replyTask notifier (pid : string) (parent : Comment)
    (r : ReplyRequest) (t : Table) :
  truthy pid = true →
  t !! pid = Some parent →
  step (replyTask notifier pid r) t = (afterLookup notifier pid parent r, t).
Proof.
  intros Hpid Hparent. unfold afterLookup, replyTask, create.
  rewrite Hpid. simpl. by rewrite Hparent, lookup_singleton_eq.
Qed.

(** Four more turns complete it: the counter is written from the snapshot,
    the row is saved, the notification (when due) is sent, the row is
    reloaded. *)
Lemma steps_afterLookup notifier (pid : string) (parent : Comment)
    (r : ReplyRequest) (t : Table) :
  truthy pid = true →
  isDeleted parent = false →
  steps 4 (afterLookup notifier pid parent r) t
  = (Settle (replyOutcome notifier pid parent r), replyWrites pid parent t r).
Proof.
  intros Hpid Hdel. unfold afterLookup, replyTask, create, replyOutcome.
  rewrite Hpid. simpl. rewrite lookup_singleton_eq, Hdel. simpl.
  rewrite Hpid. simpl.
  fold (replyRow pid parent r). fold (replyWrites pid parent t r).
  destruct (negb (String.eqb (authorId parent) (replyAuthor r))); simpl.
  - destruct (notifier _ _ _); simpl; [done|].
    unfold replyWrites at 1. by rewrite lookup_insert_eq.
  - unfold replyWrites at 1. by rewrite lookup_insert_eq.
Qed.

Lemma insert_at_end_of_prefix {A} (done_ rest : list A) (x y : A) :
  <[List.length done_ := y]> (done_ ++ x :: rest) = (done_ ++ [y]) ++ rest.
Proof.
  rewrite insert_app_r_alt, Nat.sub_diag by lia. simpl.
  by rewrite <- app_assoc.
Qed.

Lemma lookups_phase notifier (pid : string) (parent : Comment) (t : Table) :
  truthy pid = true →
  t !! pid = Some parent →
  ∀ todo done_,
    interleave (seq (List.length done_) (List.length todo))
      (done_ ++ (replyTask notifier pid <$> todo)) t
    = (done_ ++ (afterLookup notifier pid parent <$> todo), t).
Proof.
  intros Hpid Hparent. induction todo as [|r todo IH]; intros done_; [done|].
  simpl. rewrite list_lookup_middle by done.
  rewrite (step_replyTask _ _ parent) by done.
  rewrite insert_at_end_of_prefix.
  replace (S (List.length done_)) with (List.length (done_ ++ [afterLookup notifier pid parent r]))
    by (rewrite length_app; simpl; lia).
  rewrite IH. by rewrite <- app_assoc.
Qed.

Lemma completion_phase notifier (pid : string) (parent : Comment) :
  truthy pid = true →
  isDeleted parent = false →
  ∀ todo done_ t,
    interleave (flat_map (replicate 4) (seq (List.length done_) (List.length todo)))
      (done_ ++ (afterLookup notifier pid parent <$> todo)) t
    = (done_ ++ ((λ r, Settle (replyOutcome notifier pid parent r)) <$> todo),
       repliesWrites pid parent todo t).
Proof.
  intros Hpid Hdel. induction todo as [|r todo IH]; intros done_ t; [done|].
  cbn [List.length seq flat_map fmap list_fmap].
  rewrite interleave_app.
  rewrite (interleave_replicate 4 _ _ (afterLookup notifier pid parent r))
    by (by apply list_lookup_middle).
  rewrite steps_afterLookup by done. cbn [fst snd].
  rewrite insert_at_end_of_prefix.
  replace (S (List.length done_))
    with (List.length (done_ ++ [Settle (replyOutcome notifier pid parent r)]))
    by (rewrite length_app; simpl; lia).
  rewrite IH. by rewrite <- app_assoc.
Qed.

Lemma set_childrenCount_twice (n : Z) (c : Comment) :
  set_childrenCount n (set_childrenCount n c) = set_childrenCount n c.
Proof. reflexivity. Qed.

Lemma repliesWrites_cons (pid : string) (parent : Comment)
    (r : ReplyRequest) (reqs : list ReplyRequest) (t : Table) :
  repliesWrites pid parent (r :: reqs) t
  = repliesWrites pid parent reqs (replyWrites pid parent t r).
Proof. reflexivity. Qed.

Lemma repliesWrites_parent (pid : string) (parent p0 : Comment)
    (reqs : list ReplyRequest) (t : Table) :
  Forall (λ r, replyId r ≠ pid) reqs →
  t !! pid = Some p0 →
  repliesWrites pid parent reqs t !! pid
  = Some (match reqs with
          | [] => p0
          | _ => set_childrenCount (childrenCount parent + 1) p0
          end).
Proof.
  intros Hids. revert t p0.
  induction Hids as [|r reqs Hr _ IH]; intros t p0 Hp0; [done|].
  rewrite repliesWrites_cons.
  rewrite (IH _ (set_childrenCount (childrenCount parent + 1) p0)).
  - by destruct reqs.
  - unfold replyWrites. rewrite lookup_insert_ne by done.
    by rewrite lookup_alter_eq, Hp0.
Qed.

Lemma repliesWrites_other (pid : string) (parent : Comment)
    (reqs : list ReplyRequest) (t : Table) (k : string) :
  k ≠ pid →
  k ∉ replyId <$> reqs →
  repliesWrites pid parent reqs t !! k = t !! k.
Proof.
  intros Hk. revert t. induction reqs as [|r reqs IH]; intros t Hnot; [done|].
  apply not_elem_of_cons in Hnot as [Hr Hnot].
  rewrite repliesWrites_cons, IH by done.
  unfold replyWrites. rewrite lookup_insert_ne by done.
  by rewrite lookup_alter_ne.
Qed.

Lemma repliesWrites_rows (pid : string) (parent : Comment)
    (reqs : list ReplyRequest) (t : Table) (r : ReplyRequest) :
  Forall (λ r, replyId r ≠ pid) reqs →
  NoDup (replyId <$> reqs) →
  r ∈ reqs →
  repliesWrites pid parent reqs t !! replyId r = Some (replyRow pid parent r).
Proof.
  intros Hids. revert t.
  induction Hids as [|r0 reqs Hr0 Hids IH]; intros t Hnodup Hin.
  - by apply elem_of_nil in Hin.
  - apply NoDup_cons in Hnodup as [Hfresh Hnodup].
    rewrite repliesWrites_cons.
    apply elem_of_cons in Hin as [-> | Hin].
    + rewrite repliesWrites_other by done.
      unfold replyWrites. by rewrite lookup_insert_eq.
    + by apply IH.
Qed.

(** C1 in general: whatever the table, the live parent and the (at least
    one) replies requested together, when all parent lookups complete before
    the first counter write every request settles as it would alone, every
    reply row is stored under the parent, and the parent's counter has grown
    by one, not by the number of replies. *)
Lemma concurrent_replies_count_once notifier (pid : string) (parent : Comment)
    (t : Table) (reqs : list ReplyRequest) :
  pid ≠ "" →
  t !! pid = Some parent →
  isDeleted parent = false →
  Forall (λ r, replyId r ≠ pid) reqs →
  NoDup (replyId <$> reqs) →
  reqs ≠ [] →
  let after := interleave (lookupsFirst (List.length reqs))
                 (replyTask notifier pid <$> reqs) t in
  after.1 = (λ r, Settle (replyOutcome notifier pid parent r)) <$> reqs
  ∧ childrenCount <$> after.2 !! pid = Some (childrenCount parent + 1)
  ∧ ∀ r, r ∈ reqs →
         ∃ c, after.2 !! replyId r = Some c
              ∧ parentId c = Some pid ∧ id c = replyId r.
Proof.
  intros Hpid%truthy_spec Hparent Hdel Hids Hnodup Hne. cbv zeta.
  unfold lookupsFirst. rewrite interleave_app.
  pose proof (lookups_phase notifier pid parent t Hpid Hparent reqs []) as H1.
  pose proof (completion_phase notifier pid parent Hpid Hdel reqs [] t) as H2.
  cbn [List.length app] in H1, H2. rewrite H1. cbn [fst snd]. rewrite H2.
  cbn [fst snd]. split; [done|]. split.
  - rewrite (repliesWrites_parent pid parent parent) by done.
    by destruct reqs.
  - intros r Hr. exists (replyRow pid parent r). split; [|done].
    by apply repliesWrites_rows.
Qed.

(** ** The statements above, at the sample thread *)




(** Case analysis on membership in a list written out in full. *)
Ltac each_member H :=
  repeat (apply elem_of_cons in H as [-> | H]);
  try (by apply elem_of_nil in H).



(** The propagation of a notification failure, at the reply of [u2] to [A]
    with the collaborator down. *)
Lemma notification_failure_propagates_witness :
  ∃ c, run (create down "reply" "u2" (Some "A") "B" 200) tableA
       = (Rejected (CollaboratorError "notifications unavailable"),
          <["B" := c]>
            (alter (set_childrenCount (childrenCount commentA0 + 1)) "A"
               tableA))
       ∧ id c = "B" ∧ content c = "reply" ∧ authorId c = "u2"
       ∧ parentId c = Some "A" ∧ isDeleted c = false.
Proof.
  apply (notification_failure_propagates down "reply" "u2" "A" "B" 200 tableA
           commentA0 (CollaboratorError "notifications unavailable")).
  - discriminate.
  - vm_compute. reflexivity.
  - reflexivity.
  - discriminate.
  - reflexivity.
Defined.

(** The ancestry of [C], created as a reply to [B]. *)
Lemma create_assigns_ancestry_witness :
  tableAB !! "B" = Some (set_childrenCount 0 commentB)
  ∧ ∃ c, tableABC !! "C" = Some c ∧ depth c = 2 ∧ path c = "A.B".
Proof.
  assert (tableAB !! "B" = Some (set_childrenCount 0 commentB)) as HB
    by (vm_compute; reflexivity).
  split; [exact HB|].
  destruct (create_assigns_ancestry delivers "reply to reply" "u1" (Some "B")
              "C" 300 tableAB) as (_ & _ & _ & H).
  destruct (H "B" (set_childrenCount 0 commentB)) as (c & Hc & Hd & Hp & _).
  - reflexivity.
  - discriminate.
  - exact HB.
  - reflexivity.
  - exists c. split; [exact Hc|]. split; [exact Hd | exact Hp].
Defined.

(** [u1] edits [C] twice inside the window. *)
Lemma author_mutations_witness :
  ∃ c1 c2 t1 t2,
    run (update "C" "second draft" "u1" 400 401) tableABC = (Resolved c1, t1)
    ∧ run (update "C" "third draft" "u1" 500 501) t1 = (Resolved c2, t2)
    ∧ t2 !! "C" = Some c2
    ∧ originalContent c2 = Some "reply to reply"
    ∧ content c2 = "third draft" ∧ isEdited c2 = true
    ∧ editedAt c2 = Some 501.
Proof.
  destruct (author_mutations tableABC "C" commentC 400 401)
    as (_ & _ & _ & H).
  - vm_compute. reflexivity.
  - reflexivity.
  - apply (H "second draft" "third draft" 500 501); reflexivity.
Defined.

(** [u2] tries to delete [C], a comment of [u1]. *)
Lemma foreign_requester_forbidden_witness :
  ∃ e, run (delete "C" "u2" 400 401) tableABC = (Rejected e, tableABC)
       ∧ errorKind e = Forbidden.
Proof.
  destruct (foreign_requester_forbidden tableABC "C" commentC "u2" "mine now"
              400 401) as (_ & H & _).
  - vm_compute. reflexivity.
  - discriminate.
  - exact H.
Defined.

(** The three mutations aimed at [C]. *)
Lemma write_once_columns_witness :
  keepsWriteOnce (run (update "C" "second draft" "u1" 400 401) tableABC) "C"
    tableABC
  ∧ keepsWriteOnce (run (delete "C" "u1" 400 401) tableABC) "C" tableABC
  ∧ keepsWriteOnce (run (restore "C" "u1" 400 401) tableABC) "C" tableABC.
Proof.
  apply (write_once_columns tableABC "C" "second draft" "u1" 400 401).
  exact keyed_tableABC.
Defined.



(** * Further properties of the service *)

(** ** Missing comments *)

(** X1: for an id no comment has, [update], [delete], [restore] and
    [getThreadByComment] reject with a [NotFoundException], while
    [findById] and [findByIdWithChildren] resolve with [null]; none of them
    touches the table. *)
Theorem missing_comment_outcomes (t : Table) (id0 text user : string)
    (now stamp : Z) (stack : nat) :
  t !! id0 = None →
  run (update id0 text user now stamp) t
  = (Rejected (NotFoundException "Comment not found"), t)
  ∧ run (delete id0 user now stamp) t
    = (Rejected (NotFoundException "Comment not found"), t)
  ∧ run (restore id0 user now stamp) t
    = (Rejected (NotFoundException "Comment not found"), t)
  ∧ run (getThreadByComment id0) t
    = (Rejected (NotFoundException "Comment not found"), t)
  ∧ run (findById id0) t = (Resolved None, t)
  ∧ run (findByIdWithChildren stack id0) t = (Resolved None, t).
Proof.
  intros Hnone.
  rewrite run_update, run_delete, run_restore, run_getThreadByComment,
    run_findById, run_findByIdWithChildren, Hnone.
  by repeat split.
Qed.

(** ** Soft-delete and restore together *)

(** X2: a soft-delete by the author followed by a restore inside fifteen
    minutes of that delete gives back the comment as it was, with
    [restoredAt] set.  While deleted, the row keeps its [content] and shows
    [[Comment deleted]]; the restore does not look at [createdAt]. *)
Theorem delete_then_restore (t : Table) (id0 : string) (c : Comment)
    (now1 stamp1 now2 stamp2 : Z) :
  t !! id0 = Some c →
  id c = id0 →
  isDeleted c = false →
  deletedAt c = None →
  isDeletable c now1 = true →
  now2 - stamp1 < fifteenMinutes →
  ∃ c1 t1 c2,
    run (delete id0 (authorId c) now1 stamp1) t = (Resolved c1, t1)
    ∧ t1 !! id0 = Some c1
    ∧ content c1 = content c
    ∧ displayContent c1 = "[Comment deleted]"
    ∧ run (restore id0 (authorId c) now2 stamp2) t1
      = (Resolved c2, <[id0 := c2]> t)
    ∧ sameIdentity c c2 ∧ sameContent c c2 ∧ sameDeletion c c2
    ∧ childrenCount c2 = childrenCount c ∧ createdAt c2 = createdAt c
    ∧ restoredAt c2 = Some stamp2
    ∧ displayContent c2 = content c.
Proof.
  intros Hc Hid Hlive Hnever Hwindow Hrestore.
  exists (set_deleted stamp1 c), (<[id0 := set_deleted stamp1 c]> t),
    (set_restored stamp2 c).
  assert ((now2 - fifteenMinutes <? stamp1) = true) as Hopen
    by (apply Z.ltb_lt; lia).
  split; [|split; [|split; [|split; [|split]]]].
  - rewrite run_delete, Hc, String.eqb_refl, Hwindow. simpl. by rewrite Hid.
  - by rewrite lookup_insert_eq.
  - done.
  - done.
  - rewrite run_restore, lookup_insert_eq. simpl. rewrite String.eqb_refl.
    unfold isRestorable. simpl. rewrite Hopen. simpl.
    rewrite Hid, insert_insert_eq. done.
  - unfold sameDeletion, displayContent. simpl. rewrite Hlive, Hnever.
    by repeat split.
Qed.

(** X3: the restore window runs from the latest soft-delete.  A comment
    whose restore window has closed cannot be restored; once its author
    soft-deletes it again (the delete does not test [isDeleted]), the same
    restore at the same instant succeeds. *)
Theorem second_delete_reopens_restore (t : Table) (id0 : string)
    (c : Comment) (d1 now1 stamp1 now2 stamp2 : Z) :
  t !! id0 = Some c →
  id c = id0 →
  isDeleted c = true →
  deletedAt c = Some d1 →
  fifteenMinutes ≤ now2 - d1 →
  isDeletable c now1 = true →
  now2 - stamp1 < fifteenMinutes →
  (∃ e, run (restore id0 (authorId c) now2 stamp2) t = (Rejected e, t)
        ∧ errorKind e = Forbidden)
  ∧ ∃ c1 t1 c2 t2,
      run (delete id0 (authorId c) now1 stamp1) t = (Resolved c1, t1)
      ∧ deletedAt c1 = Some stamp1
      ∧ run (restore id0 (authorId c) now2 stamp2) t1 = (Resolved c2, t2)
      ∧ t2 !! id0 = Some c2
      ∧ isDeleted c2 = false ∧ content c2 = content c.
Proof.
  intros Hc Hid Hdel Hd1 Hclosed Hwindow Hopen. split.
  - rewrite run_restore, Hc, String.eqb_refl. simpl.
    unfold isRestorable. rewrite Hdel, Hd1.
    assert ((now2 - fifteenMinutes <? d1) = false) as ->
      by (apply Z.ltb_ge; lia).
    simpl. by eexists.
  - exists (set_deleted stamp1 c), (<[id0 := set_deleted stamp1 c]> t),
      (set_restored stamp2 (set_deleted stamp1 c)),
      (<[id0 := set_restored stamp2 (set_deleted stamp1 c)]>
         (<[id0 := set_deleted stamp1 c]> t)).
    split; [|split; [done|split; [|split]]].
    + rewrite run_delete, Hc, String.eqb_refl, Hwindow. simpl.
      by rewrite Hid.
    + rewrite run_restore, lookup_insert_eq. simpl.
      rewrite String.eqb_refl. unfold isRestorable. simpl.
      assert ((now2 - fifteenMinutes <? stamp1) = true) as ->
        by (apply Z.ltb_lt; lia).
      simpl. by rewrite Hid.
    + by rewrite lookup_insert_eq.
    + done.
Qed.

(** X4: a comment that is not soft-deleted, or whose [deletedAt] is not
    set, cannot be restored by anyone at any instant: the call is refused
    with [Forbidden] and changes nothing.  In particular a restore cannot
    be repeated. *)
Theorem restore_requires_deleted (t : Table) (id0 user : string)
    (c : Comment) (now stamp : Z) :
  t !! id0 = Some c →
  isDeleted c = false ∨ deletedAt c = None →
  ∃ e, run (restore id0 user now stamp) t = (Rejected e, t)
       ∧ errorKind e = Forbidden.
Proof.
  intros Hc Hlive. rewrite run_restore, Hc.
  destruct (negb (String.eqb (authorId c) user)); [by eexists|].
  assert (isRestorable c now = false) as ->.
  { unfold isRestorable. destruct Hlive as [-> | ->]; [done|].
    by destruct (isDeleted c). }
  by eexists.
Qed.

(** X5: once fifteen minutes have passed since [createdAt], the comment can
    no longer be edited or soft-deleted, by anyone, then or at any later
    instant: both calls are refused with [Forbidden] and change nothing. *)
Theorem creation_window_closes_for_good (t : Table) (id0 user text : string)
    (c : Comment) (now now' stamp : Z) :
  t !! id0 = Some c →
  fifteenMinutes ≤ now - createdAt c →
  now ≤ now' →
  (∃ e, run (update id0 text user now' stamp) t = (Rejected e, t)
        ∧ errorKind e = Forbidden)
  ∧ (∃ e, run (delete id0 user now' stamp) t = (Rejected e, t)
          ∧ errorKind e = Forbidden).
Proof.
  intros Hc Hclosed Hlater. rewrite run_update, run_delete, Hc.
  assert ((now' - fifteenMinutes <? createdAt c) = false) as Hout
    by (apply Z.ltb_ge; lia).
  unfold isEditable, isDeletable. rewrite Hout. simpl.
  destruct (negb (String.eqb (authorId c) user)); split; by eexists.
Qed.

(** ** Edits in sequence *)

Lemma isEditable_set_edit (original : option string) (text : string)
    (stamp : Z) (c : Comment) (now : Z) :
  isEditable (set_edit original text stamp c) now = isEditable c now.
Proof. reflexivity. Qed.

(** X6: any series of edits by the author, each inside the window, leaves
    the row with the text of the last edit as [content], its stamp as
    [editedAt], and as [originalContent] what the comment held before the
    first edit it ever received; nothing else in the table changes. *)
Theorem edits_keep_first_content (t : Table) (id0 : string) (c : Comment)
    (es : list Edit) (e : Edit) :
  t !! id0 = Some c →
  id c = id0 →
  Forall (λ e', isEditable c (editNow e') = true) (es ++ [e]) →
  serveAll (editTask id0 (authorId c) <$> es ++ [e]) t
  = <[id0 := set_edit (if isEdited c then originalContent c
                       else Some (content c))
               (editText e) (editStamp e) c]> t.
Proof.
  revert t c. induction es as [|e0 es IH]; intros t c Hc Hid Hwindow.
  - simpl in Hwindow. apply Forall_inv in Hwindow. cbv beta in Hwindow.
    change (serveAll (editTask id0 (authorId c) <$> [] ++ [e]) t)
      with (run (editTask id0 (authorId c) e) t).2.
    unfold editTask. rewrite run_update, Hc, String.eqb_refl, Hwindow.
    simpl. by rewrite Hid.
  - simpl in Hwindow. apply Forall_cons in Hwindow as [Hfirst Hrest].
    cbv beta in Hfirst.
    change (serveAll (editTask id0 (authorId c) <$> (e0 :: es) ++ [e]) t)
      with (serveAll (editTask id0 (authorId c) <$> es ++ [e])
              (run (editTask id0 (authorId c) e0) t).2).
    unfold editTask at 2.
    rewrite run_update, Hc, String.eqb_refl, Hfirst. simpl. rewrite Hid.
    set (c1 := set_edit (if isEdited c then originalContent c
                         else Some (content c))
                 (editText e0) (editStamp e0) c).
    rewrite (IH (<[id0 := c1]> t) c1).
    + by rewrite insert_insert_eq.
    + by rewrite lookup_insert_eq.
    + done.
    + done.
Qed.

(** ** Replies in sequence *)

(** Served alone, a reply to a live parent writes the counter and the row,
    whether or not its notification is delivered. *)
Lemma run_replyTask_writes notifier (pid : string) (parent : Comment)
    (r : ReplyRequest) (t : Table) :
  truthy pid = true →
  t !! pid = Some parent →
  isDeleted parent = false →
  (run (replyTask notifier pid r) t).2 = replyWrites pid parent t r.
Proof.
  intros Hpid Hparent Hlive. unfold replyTask.
  rewrite run_create_reply, Hparent, Hlive by done. cbv zeta.
  destruct (negb _); [destruct (notifier _ _ _)|]; done.
Qed.

Lemma replyWrites_parent (pid : string) (parent : Comment) (t : Table)
    (r : ReplyRequest) :
  replyId r ≠ pid →
  t !! pid = Some parent →
  replyWrites pid parent t r !! pid
  = Some (set_childrenCount (childrenCount parent + 1) parent).
Proof.
  intros Hr Hparent. unfold replyWrites.
  rewrite lookup_insert_ne by done. by rewrite lookup_alter_eq, Hparent.
Qed.

Lemma serveAll_replies_other notifier (pid : string)
    (reqs : list ReplyRequest) (k : string) :
  truthy pid = true →
  k ≠ pid →
  k ∉ replyId <$> reqs →
  Forall (λ r, replyId r ≠ pid) reqs →
  ∀ t parent,
    t !! pid = Some parent → isDeleted parent = false →
    serveAll (replyTask notifier pid <$> reqs) t !! k = t !! k.
Proof.
  intros Hpid Hk Hnot Hids.
  induction Hids as [|r reqs Hr Hids IH]; intros t parent Hparent Hlive;
    [done|].
  apply not_elem_of_cons in Hnot as [Hkr Hnot].
  change (serveAll (replyTask notifier pid <$> r :: reqs) t)
    with (serveAll (replyTask notifier pid <$> reqs)
            (run (replyTask notifier pid r) t).2).
  rewrite (run_replyTask_writes _ _ parent) by done.
  rewrite (IH Hnot _ (set_childrenCount (childrenCount parent + 1) parent));
    [|by apply replyWrites_parent|done].
  unfold replyWrites. rewrite lookup_insert_ne by done.
  by rewrite lookup_alter_ne.
Qed.

(** X7: replies to one live parent served one after the other are all
    counted: after [N] of them the parent's [childrenCount] has grown by
    [N], whether or not their notifications were delivered, and each reply
    is stored under the parent, one level deeper. *)
Theorem sequential_replies_count_all notifier (pid : string)
    (reqs : list ReplyRequest) :
  pid ≠ "" →
  Forall (λ r, replyId r ≠ pid) reqs →
  NoDup (replyId <$> reqs) →
  ∀ (t : Table) (parent : Comment),
    t !! pid = Some parent →
    isDeleted parent = false →
    let after := serveAll (replyTask notifier pid <$> reqs) t in
    childrenCount <$> after !! pid
    = Some (childrenCount parent + Z.of_nat (List.length reqs))
    ∧ ∀ r, r ∈ reqs →
           ∃ c, after !! replyId r = Some c
                ∧ id c = replyId r ∧ parentId c = Some pid
                ∧ depth c = depth parent + 1.
Proof.
  intros Hpid%truthy_spec Hids. cbv zeta.
  induction Hids as [|r reqs Hr Hids IH]; intros Hnodup t parent Hparent Hlive.
  - split.
    + unfold serveAll. simpl. rewrite Hparent. simpl. f_equal. lia.
    + intros r Hin. by apply elem_of_nil in Hin.
  - apply NoDup_cons in Hnodup as [Hfresh Hnodup].
    change (serveAll (replyTask notifier pid <$> r :: reqs) t)
      with (serveAll (replyTask notifier pid <$> reqs)
              (run (replyTask notifier pid r) t).2).
    rewrite (run_replyTask_writes _ _ parent) by done.
    pose proof (replyWrites_parent pid parent t r Hr Hparent) as Hnext.
    destruct (IH Hnodup _ _ Hnext Hlive) as [Hcount Hrows]. split.
    + rewrite Hcount. simpl. f_equal. lia.
    + intros r' [-> | Hin]%elem_of_cons; [|by apply Hrows].
      exists (replyRow pid parent r).
      rewrite (serveAll_replies_other notifier pid reqs (replyId r) Hpid Hr
                 Hfresh Hids _ _ Hnext Hlive).
      unfold replyWrites. by rewrite lookup_insert_eq.
Qed.

(** ** Paths as strings *)

Lemma split_nonempty (sep : ascii) (s : string) : split sep s ≠ [].
Proof.
  destruct s as [|ch s]; simpl; [done|].
  destruct (Ascii.eqb ch sep); [done|]. by destruct (split sep s).
Qed.

Lemma split_append (sep : ascii) (p s : string) :
  split sep (p +:+ String sep s) = split sep p ++ split sep s.
Proof.
  induction p as [|ch p IH]; simpl.
  - by rewrite Ascii.eqb_refl.
  - destruct (Ascii.eqb ch sep); [rewrite IH; reflexivity|].
    rewrite IH. pose proof (split_nonempty sep p).
    destruct (split sep p); [done | reflexivity].
Qed.

Lemma prefix_empty (s : string) : String.prefix "" s = true.
Proof. by destruct s. Qed.

Lemma prefix_append (p s : string) : String.prefix p (p +:+ s) = true.
Proof.
  induction p as [|ch p IH]; [apply prefix_empty|].
  simpl. by destruct (ascii_dec ch ch).
Qed.

Lemma prefix_transitive (a b c : string) :
  String.prefix a b = true → String.prefix b c = true →
  String.prefix a c = true.
Proof.
  revert b c. induction a as [|x a IH]; intros b c;
    [intros; apply prefix_empty|].
  destruct b as [|y b]; [done|]. destruct c as [|z c]; simpl; [done|].
  destruct (ascii_dec x y) as [->|]; [|done].
  destruct (ascii_dec y z) as [->|]; [|done]. apply IH.
Qed.

(** The first segment of a path is a prefix of the path. *)
Lemma head_split_prefix (s : string) :
  String.prefix (default "" (head (split "." s))) s = true.
Proof.
  induction s as [|ch s IH]; simpl; [done|].
  destruct (Ascii.eqb ch "."); simpl; [done|].
  pose proof (split_nonempty "." s).
  destruct (split "." s) as [|seg segs]; [done|]. simpl in *.
  by destruct (ascii_dec ch ch).
Qed.

Lemma length_append (p s : string) :
  String.length (p +:+ s) = (String.length p + String.length s)%nat.
Proof. induction p as [|ch p IH]; simpl; [done|]. by rewrite IH. Qed.

(** ** Threads *)

(** X8: the thread of a stored comment always resolves, contains the
    comment itself and, when the root its path names is stored, that root;
    and asking for the thread through that root (a comment with an empty
    path) gives the same list. *)
Theorem thread_contains_comment_and_root (t : Table) (k : string)
    (c : Comment) :
  keyed t →
  t !! k = Some c →
  ∃ thread,
    run (getThreadByComment k) t = (Resolved thread, t)
    ∧ c ∈ thread
    ∧ ∀ root, t !! threadRoot k c = Some root →
        root ∈ thread
        ∧ (path root = "" →
           run (getThreadByComment (threadRoot k c)) t = (Resolved thread, t)).
Proof.
  intros Hkeyed Hc. pose proof (Hkeyed _ _ Hc) as Hid.
  rewrite run_getThreadByComment, Hc. eexists. split; [done|]. split.
  - apply elem_of_threadRows; [done|]. rewrite Hid. split; [done|].
    unfold threadRoot. destruct (truthy (path c)).
    + right. apply head_split_prefix.
    + by left.
  - intros root Hroot. pose proof (Hkeyed _ _ Hroot) as Hrid. split.
    + apply elem_of_threadRows; [done|]. rewrite Hrid. split; [done|].
      by left.
    + intros Hempty. rewrite run_getThreadByComment, Hroot.
      assert (threadRoot (threadRoot k c) root = threadRoot k c) as ->;
        [|done].
      unfold threadRoot at 1. by rewrite Hempty.
Qed.

(** ** Ancestry stays well formed *)

Lemma prefix_reflexive (s : string) : String.prefix s s = true.
Proof.
  induction s as [|ch s IH]; simpl; [done|]. by destruct (ascii_dec ch ch).
Qed.

Lemma append_associative (a b c : string) :
  (a +:+ b) +:+ c = a +:+ (b +:+ c).
Proof.
  induction a as [|ch a IH]; [reflexivity|].
  change (String ch ((a +:+ b) +:+ c) = String ch (a +:+ (b +:+ c))).
  by rewrite IH.
Qed.

Lemma truthy_append (a b : string) :
  truthy a = true → truthy (a +:+ b) = true.
Proof. by destruct a. Qed.

(** The path [create] gives a reply, segment by segment. *)
Lemma split_reply_path (parent : Comment) :
  segment (id parent) →
  split "." (if truthy (path parent)
             then path parent +:+ "." +:+ id parent else id parent)
  = if truthy (path parent) then split "." (path parent) ++ [id parent]
    else [id parent].
Proof.
  intros [_ Hseg]. destruct (truthy (path parent)); [|done].
  change (path parent +:+ "." +:+ id parent)
    with (path parent +:+ String "." (id parent)).
  by rewrite split_append, Hseg.
Qed.

Lemma length_reply_path (parent : Comment) :
  id parent ≠ "" →
  (String.length (path parent)
   < String.length (if truthy (path parent)
                    then path parent +:+ "." +:+ id parent
                    else id parent))%nat.
Proof.
  intros Hid. destruct (truthy (path parent)) eqn:Hpath.
  - rewrite length_append. simpl. lia.
  - unfold truthy in Hpath. apply negb_false_iff, String.eqb_eq in Hpath.
    rewrite Hpath. destruct (id parent); [done|]. simpl. lia.
Qed.

(** A table whose rows keep the keys and paths of a well-formed table is
    well formed. *)
Lemma wellFormed_same_paths (t t' : Table) :
  wellFormed t →
  keyed t' →
  (∀ k x, t' !! k = Some x → ∃ x0, t !! k = Some x0 ∧ path x0 = path x) →
  wellFormed t'.
Proof.
  intros (Hkeyed & Hsegs & Hacyclic) Hkeyed' Hold. split; [done|]. split.
  - intros k x Hx. destruct (Hold _ _ Hx) as (x0 & Hx0 & _). eauto.
  - intros x y Hx%elem_of_rows Hy%elem_of_rows Hseg; [|done..].
    destruct (Hold _ _ Hx) as (x0 & Hx0 & Hpx).
    destruct (Hold _ _ Hy) as (y0 & Hy0 & Hpy).
    rewrite <- Hpx, <- Hpy. apply Hacyclic.
    + apply elem_of_rows; [done|]. by rewrite (Hkeyed _ _ Hx0).
    + apply elem_of_rows; [done|]. by rewrite (Hkeyed _ _ Hy0).
    + rewrite Hpx, (Hkeyed _ _ Hy0). done.
Qed.

(** Adding one row to a well-formed table keeps it well formed when the
    row's id is new to every path and the rows its path names have shorter
    paths. *)
Lemma wellFormed_new_row (t t' : Table) (c : Comment) :
  wellFormed t →
  keyed t' →
  t' !! id c = Some c →
  (∀ k x, t' !! k = Some x →
          k = id c ∨ ∃ x0, t !! k = Some x0 ∧ path x0 = path x) →
  segment (id c) →
  id c ∉ split "." (path c) →
  (∀ x0, x0 ∈ rows t → id c ∉ split "." (path x0)) →
  (∀ y0, y0 ∈ rows t → id y0 ∈ split "." (path c) →
         (String.length (path y0) < String.length (path c))%nat) →
  wellFormed t'.
Proof.
  intros (Hkeyed & Hsegs & Hacyclic) Hkeyed' Hc Hold Hsegment Hself Hfresh
    Hshorter.
  assert (∀ x, x ∈ rows t' →
            x = c ∨ ∃ x0, x0 ∈ rows t ∧ id x0 = id x ∧ path x0 = path x)
    as Hrows.
  { intros x Hx%elem_of_rows; [|done].
    destruct (Hold _ _ Hx) as [Hk | (x0 & Hx0 & Hpath)].
    - left. rewrite Hk in Hx. congruence.
    - right. exists x0. pose proof (Hkeyed _ _ Hx0) as Hid0.
      split; [|done]. apply elem_of_rows; [done|]. by rewrite Hid0. }
  split; [done|]. split.
  - intros k x Hx. destruct (Hold _ _ Hx) as [-> | (x0 & Hx0 & _)]; eauto.
  - intros x y Hx Hy Hseg.
    destruct (Hrows _ Hx) as [-> | (x0 & Hx0 & Hidx & Hpx)];
      destruct (Hrows _ Hy) as [-> | (y0 & Hy0 & Hidy & Hpy)].
    + done.
    + rewrite <- Hpy. apply Hshorter; [done|]. by rewrite Hidy.
    + rewrite <- Hpx in Hseg. by apply Hfresh in Hseg.
    + rewrite <- Hpx, <- Hpy. apply Hacyclic; [done..|].
      by rewrite Hpx, Hidy.
Qed.

Lemma wellFormed_create notifier (content0 authorId0 : string)
    (parentId0 : option string) (newId : string) (now : Z) (t : Table) :
  wellFormed t →
  freshId newId t →
  wellFormed (run (create notifier content0 authorId0 parentId0 newId now) t).2.
Proof.
  intros Hwf (Hsegment & Hnew & Hfresh).
  pose proof Hwf as (Hkeyed & Hsegs & Hacyclic).
  pose proof (keyed_create notifier content0 authorId0 parentId0 newId now t
                Hkeyed) as Hkeyed'.
  assert (∀ c, id c = newId → path c = "" →
            wellFormed (<[newId := c]> t)) as Hroot.
  { intros c Hid Hpath.
    apply (wellFormed_new_row t _ c); rewrite ?Hid, ?Hpath; try done.
    - rewrite <- Hid. by apply keyed_insert.
    - by rewrite lookup_insert_eq.
    - intros k x. destruct (decide (newId = k)) as [<-|Hne]; [by left|].
      rewrite lookup_insert_ne by done. right. by exists x.
    - destruct Hsegment as [Hne _]. simpl. intros Hin.
      apply list_elem_of_singleton in Hin. done.
    - intros y0 Hy0%elem_of_rows Hin; [|done].
      apply list_elem_of_singleton in Hin.
      destruct (Hsegs _ _ Hy0) as [Hne _]. done. }
  destruct parentId0 as [pid|]; [destruct (truthy pid) eqn:Hpid|].
  - revert Hkeyed'. rewrite run_create_reply by done.
    destruct (t !! pid) as [parent|] eqn:Hparent; [|done].
    destruct (isDeleted parent); [done|]. cbv zeta.
    set (c := commentRepository.create _ _ _ _ _ _ _).
    set (t' := <[newId := c]> (alter _ pid t)).
    intros Hkeyed'.
    assert (keyed t') as Hk'
      by (destruct (negb _); [destruct (notifier _ _ _)|]; done).
    assert (wellFormed t') as Hwf';
      [|destruct (negb _); [destruct (notifier _ _ _)|]; done].
    pose proof (Hkeyed _ _ Hparent) as Hidp.
    pose proof (Hsegs _ _ Hparent) as Hsegp. rewrite <- Hidp in Hsegp.
    assert (parent ∈ rows t) as Hinp
      by (apply elem_of_rows; [done|]; by rewrite Hidp).
    assert (newId ≠ pid) as Hnp by congruence.
    apply (wellFormed_new_row t t' c); try done.
    + subst t'. by rewrite lookup_insert_eq.
    + intros k x Hx. subst t'. destruct (decide (newId = k)) as [<-|Hne];
        [by left|].
      rewrite lookup_insert_ne in Hx by done. right.
      destruct (decide (pid = k)) as [<-|Hne'].
      * rewrite lookup_alter_eq, Hparent in Hx. simpl in Hx.
        injection Hx as <-. by exists parent.
      * rewrite lookup_alter_ne in Hx by done. by exists x.
    + simpl. rewrite split_reply_path by done.
      destruct (truthy (path parent)).
      * intros [Hin | Hin%list_elem_of_singleton]%elem_of_app;
          [by apply (Hfresh parent) | congruence].
      * intros Hin%list_elem_of_singleton. congruence.
    + intros y0 Hy0 Hin. simpl in *.
      rewrite split_reply_path in Hin by done.
      pose proof (length_reply_path parent (proj1 Hsegp)) as Hlen.
      assert (id y0 = id parent → y0 = parent) as Hsame.
      { intros Heq. apply elem_of_rows in Hy0; [|done].
        rewrite Heq, Hidp in Hy0. congruence. }
      destruct (truthy (path parent)).
      * apply elem_of_app in Hin as [Hin | Hin%list_elem_of_singleton].
        -- specialize (Hacyclic parent y0 Hinp Hy0 Hin). lia.
        -- by rewrite (Hsame Hin).
      * apply list_elem_of_singleton in Hin. by rewrite (Hsame Hin).
  - assert (pid = "") as ->.
    { unfold truthy in Hpid. apply negb_false_iff in Hpid.
      by apply String.eqb_eq. }
    by rewrite run_create_empty.
  - rewrite run_create_root. by apply Hroot.
Qed.

Lemma wellFormed_saved (t : Table) (id0 : string) (c c' : Comment) :
  wellFormed t →
  t !! id0 = Some c →
  id c' = id c →
  path c' = path c →
  wellFormed (<[id c := c']> t).
Proof.
  intros Hwf Hc Hid Hpath. pose proof Hwf as (Hkeyed & _ & _).
  apply (wellFormed_same_paths t); [done| |].
  - rewrite <- Hid. by apply keyed_insert.
  - intros k x. rewrite (Hkeyed _ _ Hc).
    destruct (decide (id0 = k)) as [<-|Hne].
    + rewrite lookup_insert_eq. intros [= <-]. by exists c.
    + rewrite lookup_insert_ne by done. intros Hx. by exists x.
Qed.

Lemma wellFormed_empty : wellFormed ∅.
Proof.
  split; [apply keyed_empty|]. split.
  - intros k c. by rewrite lookup_empty.
  - intros c c' Hc. unfold rows in Hc. rewrite map_to_list_empty in Hc.
    by apply elem_of_nil in Hc.
Qed.

(** X9: the ancestry data stays well formed under every write of the
    service.  Starting from a table keyed by id, with single-segment ids
    and paths that name only comments with strictly shorter paths, [create]
    (given a fresh uuid), [update], [delete] and [restore] all leave such a
    table: no path ever comes to name its own comment or a descendant. *)
Theorem ancestry_stays_well_formed notifier (content0 authorId0 : string)
    (parentId0 : option string) (newId id0 text user : string)
    (now stamp : Z) (t : Table) :
  wellFormed t →
  (freshId newId t →
   wellFormed
     (run (create notifier content0 authorId0 parentId0 newId now) t).2)
  ∧ wellFormed (run (update id0 text user now stamp) t).2
  ∧ wellFormed (run (delete id0 user now stamp) t).2
  ∧ wellFormed (run (restore id0 user now stamp) t).2.
Proof.
  intros Hwf. split; [by apply wellFormed_create|].
  rewrite run_update, run_delete, run_restore.
  destruct (t !! id0) as [c|] eqn:Hc; [|done].
  destruct (negb (String.eqb (authorId c) user)); [done|].
  split; [|split]; destruct (negb _); try done;
    by apply (wellFormed_saved t id0).
Qed.

(** ** A reply and its parent's subtree *)

(** X10: a reply created under a live parent is at once part of the
    parent's subtree: on a well-formed table and with a fresh uuid,
    [findByIdWithChildren] of the parent then resolves (for any call stack
    deeper than the longest path) with the parent, its counter raised by
    one, and the new reply among its children. *)
Theorem reply_listed_under_parent notifier (content0 authorId0 : string)
    (pid newId : string) (now : Z) (t : Table) (parent : Comment)
    (stack M : nat) :
  wellFormed t →
  freshId newId t →
  t !! pid = Some parent →
  isDeleted parent = false →
  let t' := (run (create notifier content0 authorId0 (Some pid) newId now)
               t).2 in
  (∀ x, x ∈ rows t' → (String.length (path x) ≤ M)%nat) →
  (M + 1 < stack)%nat →
  ∃ c nested,
    t' !! newId = Some c
    ∧ content c = content0 ∧ parentId c = Some pid
    ∧ run (findByIdWithChildren stack pid) t'
      = (Resolved
           (Some (Nest (set_childrenCount (childrenCount parent + 1) parent)
                    nested)), t')
    ∧ c ∈ comment_of <$> nested.
Proof.
  intros Hwf Hfresh Hparent Hlive t' Hwidth Hstack.
  pose proof (wellFormed_create notifier content0 authorId0 (Some pid) newId
                now t Hwf Hfresh) as Hwf'. fold t' in Hwf'.
  destruct Hwf as (Hkeyed & Hsegs & _).
  destruct Hwf' as (Hkeyed' & _ & Hacyclic').
  destruct Hfresh as (_ & Hnew & _).
  pose proof (Hsegs _ _ Hparent) as Hsegp.
  pose proof (Hkeyed _ _ Hparent) as Hidp. rewrite <- Hidp in Hsegp.
  assert (pid ≠ "") as Hpid by (rewrite <- Hidp; apply Hsegp).
  assert (newId ≠ pid) as Hnp by congruence.
  assert (t' = replyWrites pid parent t
                 (mkReplyRequest content0 authorId0 newId now)) as Ht'.
  { apply (run_replyTask_writes notifier pid parent
             (mkReplyRequest content0 authorId0 newId now));
      [by apply truthy_spec | done | done]. }
  set (c := replyRow pid parent (mkReplyRequest content0 authorId0 newId now)).
  set (p' := set_childrenCount (childrenCount parent + 1) parent).
  assert (t' !! newId = Some c) as Hc
    by (rewrite Ht'; unfold replyWrites; by rewrite lookup_insert_eq).
  assert (t' !! pid = Some p') as Hp'.
  { rewrite Ht'. unfold replyWrites. simpl.
    rewrite lookup_insert_ne by done. by rewrite lookup_alter_eq, Hparent. }
  rewrite run_findByIdWithChildren, Hp'.
  destruct (buildNestedStructure_total (subtreeRows pid p' t') M)
    with (stack := stack) (parentId0 := id p') as [nested Hnested].
  { intros x y Hx Hy. apply Hacyclic'.
    - apply elem_of_subtreeRows in Hx as [Hx _]; [|done].
      by apply elem_of_rows.
    - apply elem_of_subtreeRows in Hy as [Hy _]; [|done].
      by apply elem_of_rows. }
  { intros x Hx. apply Hwidth.
    apply elem_of_subtreeRows in Hx as [Hx _]; [|done]. by apply elem_of_rows. }
  { done. }
  rewrite Hnested. exists c, nested.
  split; [done|]. split; [done|]. split; [done|]. split; [done|].
  rewrite (buildNestedStructure_children _ _ _ _ Hnested).
  apply list_elem_of_filter. split.
  - unfold namesAncestor. apply andb_true_iff. split.
    + simpl. destruct (truthy (path parent)) eqn:Hpath.
      * by apply truthy_append.
      * rewrite Hidp. by apply truthy_spec.
    + apply bool_decide_eq_true. simpl.
      rewrite split_reply_path by done.
      destruct (truthy (path parent)); [apply elem_of_app; right|];
        by apply list_elem_of_singleton.
  - apply elem_of_subtreeRows; [done|]. split; [done|]. split; [|done].
    unfold like_prefix, subtreePrefix. simpl.
    destruct (truthy (path parent)).
    + rewrite append_associative. apply prefix_reflexive.
    + apply prefix_reflexive.
Qed.

(** ** The assembler at every level *)

Lemma buildNestedStructure_nodes (cs : list Comment) (stack : nat) :
  ∀ (parentId0 : string) (nested : list Nested),
    buildNestedStructure stack cs parentId0 = Some nested →
    ∀ n, n ∈ flat_map subtrees nested →
         comment_of n ∈ cs
         ∧ comment_of <$> children_of n
           = filter (λ c, namesAncestor (id (comment_of n)) c = true) cs.
Proof.
  induction stack as [|stack IH]; intros pid nested Hbuild n Hn; [done|].
  pose proof (buildNestedStructure_children _ _ _ _ Hbuild) as Htop.
  simpl in Hbuild. apply mapM_Some_1 in Hbuild.
  apply list_elem_of_In, in_flat_map in Hn as (y & Hy & Hn).
  apply list_elem_of_In in Hy, Hn.
  assert (comment_of y ∈ cs) as Hycs.
  { assert (comment_of y ∈ comment_of <$> nested) as Hin
      by (by apply list_elem_of_fmap_2).
    rewrite Htop in Hin. by apply list_elem_of_filter in Hin as [_ Hin]. }
  apply list_elem_of_lookup in Hy as [i Hi].
  destruct (Forall2_lookup_r _ _ _ _ _ Hbuild Hi) as (x & _ & Hx).
  cbv beta in Hx.
  destruct (buildNestedStructure stack cs (id x)) as [lx|] eqn:Hlx;
    [|done].
  simpl in Hx. injection Hx as <-. simpl in Hn.
  apply elem_of_cons in Hn as [-> | Hn].
  - split; [done|]. simpl. by apply (buildNestedStructure_children stack).
  - by apply (IH (id x) lx).
Qed.

(** X11: the assembler nests by ancestry at every level.  Each node of the
    result of [findByIdWithChildren], at any depth, is one of the rows
    selected for the subtree, and its children are exactly the selected
    rows whose path names that node, in the order they were selected. *)
Theorem subtree_nests_by_ancestry (t : Table) (stack : nat) (id0 : string)
    (root : Comment) (nested : list Nested) (n : Nested) :
  run (findByIdWithChildren stack id0) t
  = (Resolved (Some (Nest root nested)), t) →
  n ∈ flat_map subtrees nested →
  t !! id0 = Some root
  ∧ comment_of n ∈ subtreeRows id0 root t
  ∧ comment_of <$> children_of n
    = filter (λ c, namesAncestor (id (comment_of n)) c = true)
        (subtreeRows id0 root t).
Proof.
  rewrite run_findByIdWithChildren. intros Hrun Hn.
  destruct (t !! id0) as [root'|]; [|done].
  destruct (buildNestedStructure stack (subtreeRows id0 root' t) (id root'))
    as [nested'|] eqn:Hbuild; [|done].
  injection Hrun as -> ->. split; [done|].
  by apply (buildNestedStructure_nodes _ stack (id root) nested).
Qed.

(** ** Order of the listings *)

Lemma createdBefore_total : Total createdBefore.
Proof. intros a b. unfold createdBefore. lia. Qed.

Lemma createdBefore_transitive : Transitive createdBefore.
Proof. intros a b c. unfold createdBefore. lia. Qed.

Lemma createdAfter_total : Total createdAfter.
Proof. intros a b. unfold createdAfter. lia. Qed.

Lemma createdAfter_transitive : Transitive createdAfter.
Proof. intros a b c. unfold createdAfter. lia. Qed.

Lemma orderByCreatedAtASC_sorted (l : list Comment) :
  StronglySorted createdBefore (orderByCreatedAtASC l).
Proof.
  apply StronglySorted_merge_sort;
    [apply createdBefore_transitive | apply createdBefore_total].
Qed.

Lemma orderByCreatedAtDESC_sorted (l : list Comment) :
  StronglySorted createdAfter (orderByCreatedAtDESC l).
Proof.
  apply StronglySorted_merge_sort;
    [apply createdAfter_transitive | apply createdAfter_total].
Qed.

Lemma StronglySorted_sublist {A} (R : relation A) (l1 l2 : list A) :
  l1 `sublist_of` l2 → StronglySorted R l2 → StronglySorted R l1.
Proof.
  induction 1 as [|x l1 l2 Hsub IH|x l1 l2 Hsub IH]; intros Hsorted.
  - constructor.
  - apply StronglySorted_inv in Hsorted as [Hrest Hall].
    constructor; [by apply IH|].
    apply Forall_forall. intros y Hy.
    apply (proj1 (Forall_forall _ _) Hall). by eapply elem_of_sublist.
  - apply StronglySorted_inv in Hsorted as [Hrest _]. by apply IH.
Qed.

(** X12: listings come in the order of creation.  A thread is in ascending
    order of [createdAt]; so are the children of every node of a nested
    subtree, the assembler keeping the order of the rows it is given; and a
    page of [findMany] is in descending order. *)
Theorem listings_follow_creation_order (t : Table) :
  (∀ k thread, run (getThreadByComment k) t = (Resolved thread, t) →
               StronglySorted createdBefore thread)
  ∧ (∀ stack id0 tree n,
       run (findByIdWithChildren stack id0) t = (Resolved (Some tree), t) →
       n ∈ subtrees tree →
       StronglySorted createdBefore (comment_of <$> children_of n))
  ∧ (∀ page0 limit0 authorId0 parentId0 includeDeleted0 r,
       run (findMany page0 limit0 authorId0 parentId0 includeDeleted0) t
       = (Resolved r, t) →
       StronglySorted createdAfter (comments r)).
Proof.
  split; [|split].
  - intros k thread. rewrite run_getThreadByComment.
    destruct (t !! k); [|done]. intros [= <-].
    apply orderByCreatedAtASC_sorted.
  - intros stack id0 [root nested] n. rewrite run_findByIdWithChildren.
    destruct (t !! id0) as [root'|]; [|done].
    destruct (buildNestedStructure stack (subtreeRows id0 root' t) (id root'))
      as [nested'|] eqn:Hbuild; [|done].
    intros [= -> ->] Hn.
    assert (StronglySorted createdBefore (subtreeRows id0 root t)) as Hsorted
      by apply orderByCreatedAtASC_sorted.
    simpl in Hn. apply elem_of_cons in Hn as [-> | Hn].
    + simpl. rewrite (buildNestedStructure_children _ _ _ _ Hbuild).
      eapply StronglySorted_sublist; [apply sublist_filter | done].
    + destruct (buildNestedStructure_nodes _ _ _ _ Hbuild n Hn) as [_ ->].
      eapply StronglySorted_sublist; [apply sublist_filter | done].
  - intros page0 limit0 authorId0 parentId0 includeDeleted0 r.
    rewrite run_findMany. cbv zeta. destruct (_ <? 0); [done|].
    intros [= <-]. simpl.
    eapply StronglySorted_sublist;
      [|apply (orderByCreatedAtDESC_sorted
                 (filter (λ c, findManyWhere (default false includeDeleted0)
                                 authorId0 parentId0 c = true) (rows t)))].
    destruct (default 10%nat limit0).
    + apply sublist_drop.
    + etrans; [apply sublist_take | apply sublist_drop].
Qed.

(** ** Pages of [findMany] *)

Lemma findManyPage_eq (t : Table) (page0 limit0 : nat)
    (authorId0 : option string) (parentId0 : option (option string))
    (includeDeleted0 : option bool) :
  (1 ≤ page0)%nat →
  (1 ≤ limit0)%nat →
  findManyPage t page0 limit0 authorId0 parentId0 includeDeleted0
  = take limit0
      (drop ((page0 - 1) * limit0)
         (orderByCreatedAtDESC
            (filter (λ c, findManyWhere (default false includeDeleted0)
                            authorId0 parentId0 c = true) (rows t)))).
Proof.
  intros Hpage Hlimit. unfold findManyPage.
  by rewrite run_findMany_page.
Qed.

(** Slices of one list, one page after the other. *)
Lemma pages_tile_list {A} (l : list A) (limit0 n : nat) :
  flat_map (λ p, take limit0 (drop ((p - 1) * limit0) l)) (seq 1 n)
  = take (n * limit0) l.
Proof.
  induction n as [|n IH]; [done|].
  rewrite seq_S, flat_map_app, IH. simpl. rewrite app_nil_r.
  replace (n - 0)%nat with n by lia.
  rewrite take_take_drop. f_equal. lia.
Qed.

(** Rows of distinct [createdAt] are told apart by it. *)
Lemma createdAt_distinct (l : list Comment) (x y : Comment) :
  NoDup (createdAt <$> l) →
  x ∈ l → y ∈ l → createdAt x = createdAt y → x = y.
Proof.
  induction l as [|z l IH]; [by intros _ ?%elem_of_nil|].
  rewrite fmap_cons, NoDup_cons. intros [Hz Hl] Hx Hy Heq.
  apply elem_of_cons in Hx as [-> | Hx];
    apply elem_of_cons in Hy as [-> | Hy].
  - done.
  - destruct Hz. rewrite Heq. apply list_elem_of_fmap. by exists y.
  - destruct Hz. rewrite <- Heq. apply list_elem_of_fmap. by exists x.
  - by apply IH.
Qed.

(** An [ORDER BY createdAt DESC] leaves one order only to rows of distinct
    [createdAt]. *)
Lemma sorted_listing_unique (l1 l2 : list Comment) :
  (∀ x y, x ∈ l2 → y ∈ l2 → createdAt x = createdAt y → x = y) →
  l1 ≡ₚ l2 →
  StronglySorted createdAfter l1 →
  StronglySorted createdAfter l2 →
  l1 = l2.
Proof.
  revert l2. induction l1 as [|x l1 IH]; intros l2 Hinj Hperm H1 H2.
  - symmetry. by apply Permutation_nil.
  - destruct l2 as [|y l2];
      [by apply Permutation_sym, Permutation_nil in Hperm|].
    apply StronglySorted_inv in H1 as [H1 Hx].
    apply StronglySorted_inv in H2 as [H2 Hy].
    assert (x = y) as ->.
    { assert (x ∈ y :: l2) as Hxin by (rewrite <- Hperm; left).
      assert (y ∈ x :: l1) as Hyin by (rewrite Hperm; left).
      apply elem_of_cons in Hxin as [-> | Hxin]; [done|].
      apply elem_of_cons in Hyin as [-> | Hyin]; [done|].
      apply Hinj; [by right | by left |].
      pose proof (proj1 (Forall_forall _ _) Hx y Hyin) as Hxy.
      pose proof (proj1 (Forall_forall _ _) Hy x Hxin) as Hyx.
      unfold createdAfter in Hxy, Hyx. lia. }
    f_equal. apply IH; [|by apply Permutation_cons_inv in Hperm|done..].
    intros a b Ha Hb. apply Hinj; by right.
Qed.

(** X13: the pages of [findMany] tile the listing.  Each page is a query of
    its own, ordered by [createdAt] alone, so the pages fit together only
    when that order is the same in every query: the statement is of tables
    whose rows have distinct [createdAt], where the descending order of the
    matching rows is the only one there is.  Then, for a page size of at
    least one, pages [1 .. n] put end to end are the first [n] pages' worth
    of the listing (what page 1 of size [n * limit] returns): no row is
    skipped or repeated between pages; no page is longer than the page
    size; and a page that starts at or beyond [total] is empty. *)
Theorem findMany_pages_tile (t : Table) (limit0 n : nat)
    (authorId0 : option string) (parentId0 : option (option string))
    (includeDeleted0 : option bool) :
  NoDup (createdAt <$> rows t) →
  (1 ≤ limit0)%nat →
  (1 ≤ n)%nat →
  (∀ listing,
     listing ≡ₚ filter (λ c, findManyWhere (default false includeDeleted0)
                               authorId0 parentId0 c = true) (rows t) →
     StronglySorted createdAfter listing →
     flat_map (λ p, take limit0 (drop ((p - 1) * limit0) listing)) (seq 1 n)
     = findManyPage t 1 (n * limit0) authorId0 parentId0 includeDeleted0)
  ∧ flat_map (λ p, findManyPage t p limit0 authorId0 parentId0
                     includeDeleted0)
      (seq 1 n)
    = findManyPage t 1 (n * limit0) authorId0 parentId0 includeDeleted0
  ∧ (∀ p, (1 ≤ p)%nat →
       ∃ r, run (findMany (Some p) (Some limit0) authorId0 parentId0
                   includeDeleted0) t = (Resolved r, t)
            ∧ comments r
              = findManyPage t p limit0 authorId0 parentId0 includeDeleted0
            ∧ page r = p ∧ limit r = limit0
            ∧ (List.length (comments r) ≤ limit0)%nat
            ∧ ((total r ≤ (p - 1) * limit0)%nat → comments r = [])).
Proof.
  intros Hdistinct Hlimit Hn.
  set (matching := filter (λ c, findManyWhere (default false includeDeleted0)
                                  authorId0 parentId0 c = true) (rows t)).
  assert (findManyPage t 1 (n * limit0) authorId0 parentId0 includeDeleted0
          = take (n * limit0) (orderByCreatedAtDESC matching)) as Hall.
  { rewrite findManyPage_eq by nia. simpl. by rewrite drop_0. }
  split; [|split].
  - intros listing Hperm Hsorted. rewrite Hall, pages_tile_list. f_equal.
    apply sorted_listing_unique;
      [|by unfold orderByCreatedAtDESC; rewrite merge_sort_Permutation
       |done|apply orderByCreatedAtDESC_sorted].
    intros x y Hx Hy. rewrite elem_of_orderByCreatedAtDESC in Hx, Hy.
    apply list_elem_of_filter in Hx as [_ Hx].
    apply list_elem_of_filter in Hy as [_ Hy].
    by apply (createdAt_distinct (rows t)).
  - rewrite Hall, <- pages_tile_list. clear Hn Hall.
    induction n as [|k IH]; [done|].
    rewrite !seq_S, !flat_map_app, IH. simpl.
    by rewrite findManyPage_eq by lia.
  - intros p Hp. rewrite run_findMany_page by done. eexists.
    split; [done|]. simpl. rewrite findManyPage_eq by done.
    split; [done|]. split; [done|]. split; [done|]. split.
    + apply firstn_le_length.
    + intros Hend. rewrite drop_ge; [by rewrite take_nil|].
      unfold orderByCreatedAtDESC. by rewrite merge_sort_Permutation.
Qed.

Lemma findManyWhere_spec (authorId0 : option string)
    (parentId0 : option (option string)) (includeDeleted0 : option bool)
    (c : Comment) :
  findManyWhere (default false includeDeleted0) authorId0 parentId0 c = true
  ↔ passesOptions authorId0 parentId0 includeDeleted0 c.
Proof.
  unfold findManyWhere, passesOptions.
  rewrite !andb_true_iff. split.
  - intros [[Hdel Hauthor] Hparent]. repeat split.
    + destruct includeDeleted0 as [[]|]; simpl in Hdel;
        [by left | right; by destruct (isDeleted c)..].
    + intros a -> Ha%truthy_spec. rewrite Ha in Hauthor.
      by apply String.eqb_eq.
    + intros ->. by apply bool_decide_eq_true in Hparent.
    + intros p ->. by apply bool_decide_eq_true in Hparent.
  - intros (Hdel & Hauthor & Hroot & Hchild). repeat split.
    + destruct Hdel as [-> | ->]; [done|].
      by destruct (negb (default false includeDeleted0)).
    + destruct authorId0 as [a|]; [|done].
      destruct (truthy a) eqn:Ha; [|done].
      apply String.eqb_eq, Hauthor; [done | by apply truthy_spec].
    + destruct parentId0 as [[p|]|]; [| |done];
        apply bool_decide_eq_true; auto.
Qed.

(** X14: [findMany] returns stored comments that pass its options, and on
    a first page large enough for the whole table it returns every one of
    them.  An empty [authorId] filters nothing. *)
Theorem findMany_returns_what_passes (t : Table) (page0 limit0 : nat)
    (authorId0 : option string) (parentId0 : option (option string))
    (includeDeleted0 : option bool) (c : Comment) :
  keyed t →
  (1 ≤ page0)%nat →
  (1 ≤ limit0)%nat →
  (c ∈ findManyPage t page0 limit0 authorId0 parentId0 includeDeleted0 →
   t !! id c = Some c
   ∧ passesOptions authorId0 parentId0 includeDeleted0 c)
  ∧ ((List.length (rows t) ≤ limit0)%nat →
     t !! id c = Some c →
     passesOptions authorId0 parentId0 includeDeleted0 c →
     c ∈ findManyPage t 1 limit0 authorId0 parentId0 includeDeleted0)
  ∧ findManyPage t page0 limit0 (Some "") parentId0 includeDeleted0
    = findManyPage t page0 limit0 None parentId0 includeDeleted0.
Proof.
  intros Hkeyed Hpage Hlimit. rewrite !findManyPage_eq by done.
  split; [|split].
  - intros Hin. destruct limit0 as [|k]; [lia|].
    apply (elem_of_page _ _ (S k)) in Hin.
    apply elem_of_orderByCreatedAtDESC, list_elem_of_filter in Hin
      as [Hwhere Hin].
    split; [by apply elem_of_rows | by apply findManyWhere_spec].
  - intros Hfits Hc Hpass. simpl. rewrite drop_0, take_ge.
    + apply elem_of_orderByCreatedAtDESC, list_elem_of_filter.
      split; [by apply findManyWhere_spec | by apply elem_of_rows].
    + unfold orderByCreatedAtDESC. rewrite merge_sort_Permutation.
      etrans; [apply length_filter | done].
  - done.
Qed.

(** ** The further properties, at the sample thread *)

Lemma wellFormed_tableA : wellFormed tableA.
Proof.
  apply wellFormed_create; [apply wellFormed_empty|].
  split; [by split|]. split; [done|].
  intros c Hc. unfold rows in Hc. rewrite map_to_list_empty in Hc.
  by apply elem_of_nil in Hc.
Qed.

Lemma rows_tableA : rows tableA = [commentA0].
Proof. by vm_compute. Qed.

Lemma rows_tableAB : rows tableAB = [commentA; set_childrenCount 0 commentB].
Proof. by vm_compute. Qed.

Lemma freshId_B_tableA : freshId "B" tableA.
Proof.
  split; [by split|]. split; [by vm_compute|].
  rewrite rows_tableA. intros c Hc. each_member Hc. simpl.
  intros Hin%list_elem_of_singleton. discriminate.
Qed.

(** An id nobody has, asked of every operation. *)
Lemma missing_comment_outcomes_witness :
  run (update "Z" "text" "u1" 400 401) tableABC
  = (Rejected (NotFoundException "Comment not found"), tableABC)
  ∧ run (findByIdWithChildren 3 "Z") tableABC = (Resolved None, tableABC).
Proof.
  destruct (missing_comment_outcomes tableABC "Z" "text" "u1" 400 401 3)
    as (Hupdate & _ & _ & _ & _ & Hsubtree).
  - vm_compute. reflexivity.
  - split; [exact Hupdate | exact Hsubtree].
Defined.

(** [u1] soft-deletes [C] and restores it a tenth of a second later. *)
Lemma delete_then_restore_witness :
  ∃ c2, run (restore "C" "u1" 500 501)
          (run (delete "C" "u1" 400 401) tableABC).2
        = (Resolved c2, <["C" := c2]> tableABC)
        ∧ sameContent commentC c2 ∧ sameDeletion commentC c2
        ∧ restoredAt c2 = Some 501.
Proof.
  destruct (delete_then_restore tableABC "C" commentC 400 401 500 501)
    as (c1 & t1 & c2 & Hdelete & _ & _ & _ & Hrestore & _ & Hcontent
        & Hdeletion & _ & _ & Hrestored & _).
  - vm_compute. reflexivity.
  - reflexivity.
  - reflexivity.
  - reflexivity.
  - reflexivity.
  - unfold fifteenMinutes. lia.
  - exists c2.
    assert (run (delete "C" "u1" 400 401) tableABC = (Resolved c1, t1))
      as -> by exact Hdelete.
    split; [exact Hrestore|]. split; [exact Hcontent|].
    split; [exact Hdeletion | exact Hrestored].
Defined.

(** [C], soft-deleted at 401, is out of its restore window at 1000000; its
    author soft-deletes it again at 800001, and the restore goes through. *)
Lemma second_delete_reopens_restore_witness :
  (∃ e, run (restore "C" "u1" 1000000 1000001) tableDeleted
        = (Rejected e, tableDeleted) ∧ errorKind e = Forbidden)
  ∧ ∃ c2 t2, run (restore "C" "u1" 1000000 1000001)
               (run (delete "C" "u1" 800000 800001) tableDeleted).2
             = (Resolved c2, t2) ∧ isDeleted c2 = false.
Proof.
  destruct (second_delete_reopens_restore tableDeleted "C" deletedC 401
              800000 800001 1000000 1000001)
    as (Hclosed & c1 & t1 & c2 & t2 & Hdelete & _ & Hrestore & _ & Hlive & _).
  - vm_compute. reflexivity.
  - reflexivity.
  - reflexivity.
  - reflexivity.
  - unfold fifteenMinutes. lia.
  - reflexivity.
  - unfold fifteenMinutes. lia.
  - split; [exact Hclosed|]. exists c2, t2.
    assert (run (delete "C" "u1" 800000 800001) tableDeleted
            = (Resolved c1, t1)) as -> by exact Hdelete.
    split; [exact Hrestore | exact Hlive].
Defined.

(** [C] was never deleted: nothing to restore. *)
Lemma restore_requires_deleted_witness :
  ∃ e, run (restore "C" "u1" 400 401) tableABC = (Rejected e, tableABC)
       ∧ errorKind e = Forbidden.
Proof.
  apply (restore_requires_deleted tableABC "C" "u1" commentC 400 401).
  - vm_compute. reflexivity.
  - left. reflexivity.
Defined.

(** [C], created at 300, a quarter of an hour later and after. *)
Lemma creation_window_closes_for_good_witness :
  (∃ e, run (update "C" "late" "u1" 900301 900302) tableABC
        = (Rejected e, tableABC) ∧ errorKind e = Forbidden)
  ∧ (∃ e, run (delete "C" "u1" 900301 900302) tableABC
          = (Rejected e, tableABC) ∧ errorKind e = Forbidden).
Proof.
  apply (creation_window_closes_for_good tableABC "C" "u1" "late" commentC
           900300 900301 900302).
  - vm_compute. reflexivity.
  - unfold fifteenMinutes. simpl. lia.
  - lia.
Defined.

(** Three edits of [C] by [u1]. *)
Lemma edits_keep_first_content_witness :
  serveAll (editTask "C" "u1"
            <$> [mkEdit "v1" 400 401; mkEdit "v2" 500 501]
                ++ [mkEdit "v3" 600 601]) tableABC
  = <["C" := set_edit (Some "reply to reply") "v3" 601 commentC]> tableABC.
Proof.
  apply (edits_keep_first_content tableABC "C" commentC
           [mkEdit "v1" 400 401; mkEdit "v2" 500 501] (mkEdit "v3" 600 601)).
  - vm_compute. reflexivity.
  - reflexivity.
  - repeat constructor.
Defined.

(** Two replies to [A], one after the other, with the notifications down. *)
Lemma sequential_replies_count_all_witness :
  childrenCount
  <$> serveAll (replyTask down "A"
                <$> [mkReplyRequest "r1" "u2" "B" 200;
                     mkReplyRequest "r2" "u3" "C" 201]) tableA !! "A"
  = Some 2.
Proof.
  destruct (sequential_replies_count_all down "A"
              [mkReplyRequest "r1" "u2" "B" 200;
               mkReplyRequest "r2" "u3" "C" 201])
    with (t := tableA) (parent := commentA0) as [Hcount _].
  - discriminate.
  - repeat constructor; discriminate.
  - compute_done.
  - vm_compute. reflexivity.
  - reflexivity.
  - exact Hcount.
Defined.

(** The thread of [C]. *)
Lemma thread_contains_comment_and_root_witness :
  ∃ thread, run (getThreadByComment "C") tableABC = (Resolved thread, tableABC)
            ∧ commentC ∈ thread ∧ commentA ∈ thread.
Proof.
  destruct (thread_contains_comment_and_root tableABC "C" commentC)
    as (thread & Hrun & Hself & Hroot).
  - exact keyed_tableABC.
  - vm_compute. reflexivity.
  - exists thread. split; [exact Hrun|]. split; [exact Hself|].
    apply (Hroot commentA). vm_compute. reflexivity.
Defined.

Lemma wellFormed_tableAB : wellFormed tableAB.
Proof.
  apply wellFormed_create; [exact wellFormed_tableA | exact freshId_B_tableA].
Qed.

Lemma freshId_C_tableAB : freshId "C" tableAB.
Proof.
  split; [by split|]. split; [by vm_compute|].
  rewrite rows_tableAB. intros c Hc. each_member Hc; simpl;
    intros Hin%list_elem_of_singleton; discriminate.
Qed.

(** On the thread of [A] and its reply [B]: [C] is created under [B], with
    path [A.B]; and [B], whose path is [A], is edited, soft-deleted and
    asked to be restored by its author. *)
Lemma ancestry_stays_well_formed_witness :
  wellFormed tableABC
  ∧ wellFormed (run (update "B" "text" "u2" 300 301) tableAB).2
  ∧ wellFormed (run (delete "B" "u2" 300 301) tableAB).2
  ∧ wellFormed (run (restore "B" "u2" 300 301) tableAB).2.
Proof.
  destruct (ancestry_stays_well_formed delivers "reply to reply" "u1"
              (Some "B") "C" "B" "text" "u2" 300 301 tableAB)
    as (Hcreate & Hrest).
  - exact wellFormed_tableAB.
  - split; [exact (Hcreate freshId_C_tableAB) | exact Hrest].
Defined.

(** [B] is created under [A] and listed under it. *)
Lemma reply_listed_under_parent_witness :
  ∃ c nested,
    tableAB !! "B" = Some c
    ∧ run (findByIdWithChildren 3 "A") tableAB
      = (Resolved (Some (Nest commentA nested)), tableAB)
    ∧ c ∈ comment_of <$> nested.
Proof.
  destruct (reply_listed_under_parent delivers "reply" "u2" "A" "B" 200
              tableA commentA0 3 1)
    as (c & nested & Hc & _ & _ & Hrun & Hin).
  - exact wellFormed_tableA.
  - exact freshId_B_tableA.
  - vm_compute. reflexivity.
  - reflexivity.
  - fold tableAB. rewrite rows_tableAB. intros x Hx.
    each_member Hx; vm_compute; lia.
  - lia.
  - exists c, nested. split; [exact Hc|]. split; [exact Hrun | exact Hin].
Defined.

(** The node [B] in the subtree of [A]. *)
Lemma subtree_nests_by_ancestry_witness :
  comment_of <$> children_of (Nest commentB [Nest commentC []])
  = filter (λ c, namesAncestor "B" c = true) (subtreeRows "A" commentA tableABC).
Proof.
  destruct (subtree_nests_by_ancestry tableABC 3 "A" commentA
              [Nest commentB [Nest commentC []]; Nest commentC []]
              (Nest commentB [Nest commentC []])) as (_ & _ & Hchildren).
  - vm_compute. reflexivity.
  - simpl. apply elem_of_cons. left. reflexivity.
  - exact Hchildren.
Defined.

(** The thread of [C] is in ascending order of creation. *)
Lemma listings_follow_creation_order_witness :
  StronglySorted createdBefore [commentA; commentB; commentC].
Proof.
  destruct (listings_follow_creation_order tableABC) as (Hthread & _ & _).
  apply (Hthread "C"). vm_compute. reflexivity.
Defined.

(** Two pages of two comments over the sample thread. *)
Lemma findMany_pages_tile_witness :
  findManyPage tableABC 1 2 None None None
  ++ findManyPage tableABC 2 2 None None None
  = findManyPage tableABC 1 4 None None None.
Proof.
  destruct (findMany_pages_tile tableABC 2 2 None None None)
    as (_ & Htile & _).
  - apply (bool_decide_unpack _). by vm_compute.
  - lia.
  - lia.
  - simpl in Htile. rewrite app_nil_r in Htile. exact Htile.
Defined.

(** The replies to [B], among all comments of the sample thread. *)
Lemma findMany_returns_what_passes_witness :
  commentC ∈ findManyPage tableABC 1 10 None (Some (Some "B")) None.
Proof.
  destruct (findMany_returns_what_passes tableABC 1 10 None (Some (Some "B"))
              None commentC) as (_ & Hall & _).
  - exact keyed_tableABC.
  - lia.
  - lia.
  - apply Hall.
    + vm_compute. lia.
    + vm_compute. reflexivity.
    + split; [right; reflexivity|]. split; [discriminate|].
      split; [discriminate|]. intros p [= <-]. reflexivity.
Defined.

(** ** What [create] writes *)

(** X15: [create] writes two rows at most.  Every row other than the new
    one and the parent is left as it was.  The parent keeps everything but
    its counter, which is raised by one when the parent is live and left
    alone when it is soft-deleted (the creation then fails).  The row of
    the new id, if the call wrote it, holds the given content, author and
    parent, is live, unedited, without children, and created at the given
    instant. *)
Theorem create_writes_two_rows notifier (content0 authorId0 : string)
    (parentId0 : option string) (newId : string) (now : Z) (t : Table) :
  let t' := (run (create notifier content0 authorId0 parentId0 newId now) t).2
  in
  (∀ k, k ≠ newId → parentId0 ≠ Some k → t' !! k = t !! k)
  ∧ (∀ pid parent,
       parentId0 = Some pid → pid ≠ "" → pid ≠ newId →
       t !! pid = Some parent →
       (isDeleted parent = true → t' = t)
       ∧ (isDeleted parent = false →
          t' !! pid
          = Some (set_childrenCount (childrenCount parent + 1) parent)))
  ∧ (∀ c, t' !! newId = Some c →
          t' = t
          ∨ (id c = newId ∧ content c = content0 ∧ authorId c = authorId0
             ∧ parentId c = parentId0 ∧ isDeleted c = false
             ∧ isEdited c = false ∧ originalContent c = None
             ∧ childrenCount c = 0 ∧ createdAt c = now)).
Proof.
  cbv zeta.
  assert (∀ pid, truthy pid = false → pid = "") as Hempty.
  { intros pid H. unfold truthy in H. apply negb_false_iff in H.
    by apply String.eqb_eq. }
  destruct parentId0 as [pid|]; [destruct (truthy pid) eqn:Hpid|].
  - rewrite run_create_reply by done.
    destruct (t !! pid) as [parent|] eqn:Hparent.
    + destruct (isDeleted parent) eqn:Hdel.
      * split; [done|]. split; [|by left].
        intros pid' parent' [= <-] _ _ Hp'. split; [done|]. congruence.
      * cbv zeta. set (c := commentRepository.create _ _ _ _ _ _ _).
        set (t' := <[newId := c]> (alter _ pid t)).
        assert ((if negb (String.eqb (authorId parent) authorId0)
                 then match notifier (authorId parent) newId authorId0 with
                      | Some e => (Rejected e, t')
                      | None => (Resolved (Some c), t')
                      end
                 else (Resolved (Some c), t')).2 = t') as ->
          by (destruct (negb _); [destruct (notifier _ _ _)|]; done).
        subst t'. split; [|split].
        -- intros k Hk Hkp. rewrite lookup_insert_ne by done.
           rewrite lookup_alter_ne; [done | congruence].
        -- intros pid' parent' [= <-] _ Hne Hp'. split; [congruence|].
           intros _. rewrite lookup_insert_ne by done.
           rewrite lookup_alter_eq, Hparent. simpl. congruence.
        -- intros c'. rewrite lookup_insert_eq. intros [= <-]. by right.
    + split; [done|]. split; [|by left].
      intros pid' parent' [= <-] _ _ Hp'. congruence.
  - rewrite (Hempty _ Hpid), run_create_empty. simpl.
    split; [done|]. split; [|by left].
    intros pid' parent' [= <-] Hne. done.
  - rewrite run_create_root. simpl. split; [|split].
    + intros k Hk _. by rewrite lookup_insert_ne.
    + done.
    + intros c'. rewrite lookup_insert_eq. intros [= <-]. by right.
Qed.

(** ** A reply racing a soft-delete *)

Lemma steps_deleteTask (id0 : string) (c : Comment) (now stamp : Z)
    (t : Table) :
  t !! id0 = Some c →
  isDeletable c now = true →
  steps 2 (deleteTask id0 (authorId c) now stamp) t
  = (Settle (Resolved (Some (set_deleted stamp c))),
     <[id c := set_deleted stamp c]> t).
Proof.
  intros Hc Hwindow. unfold deleteTask, delete. simpl.
  by rewrite Hc, String.eqb_refl, Hwindow.
Qed.

(** X16: the test that refuses replies to soft-deleted comments is made on
    the parent as looked up; the reply is written several awaits later.
    When the parent's author soft-deletes it in between, the soft-delete
    succeeds, the reply settles as it would have alone, and the reply is
    stored, and counted, under a parent that is by then soft-deleted. *)
Theorem reply_lands_under_deleted_parent notifier (pid : string)
    (parent : Comment) (r : ReplyRequest) (now stamp : Z) (t : Table) :
  t !! pid = Some parent →
  id parent = pid →
  pid ≠ "" →
  replyId r ≠ pid →
  isDeleted parent = false →
  isDeletable parent now = true →
  let after := interleave deleteAfterLookup
                 [replyTask notifier pid r;
                  deleteTask pid (authorId parent) now stamp] t in
  after.1 = [Settle (replyOutcome notifier pid parent r);
             Settle (Resolved (Some (set_deleted stamp parent)))]
  ∧ (∃ p', after.2 !! pid = Some p'
           ∧ isDeleted p' = true
           ∧ childrenCount p' = childrenCount parent + 1)
  ∧ ∃ c, after.2 !! replyId r = Some c
         ∧ parentId c = Some pid ∧ isDeleted c = false.
Proof.
  intros Hparent Hid Hpid%truthy_spec Hnew Hlive Hwindow. cbv zeta.
  unfold deleteAfterLookup. rewrite !interleave_app.
  assert (interleave [0%nat]
            [replyTask notifier pid r;
             deleteTask pid (authorId parent) now stamp] t
          = ([afterLookup notifier pid parent r;
              deleteTask pid (authorId parent) now stamp], t)) as ->.
  { simpl. rewrite (step_replyTask _ _ parent) by done. reflexivity. }
  cbn [fst snd].
  rewrite (interleave_replicate 2 1 _
             (deleteTask pid (authorId parent) now stamp)) by done.
  rewrite steps_deleteTask by done. cbn [fst snd]. rewrite Hid.
  rewrite (interleave_replicate 4 0 _ (afterLookup notifier pid parent r))
    by done.
  rewrite steps_afterLookup by done. cbn [fst snd].
  split; [done|]. unfold replyWrites. split.
  - eexists. rewrite lookup_insert_ne by done.
    rewrite lookup_alter_eq, lookup_insert_eq. simpl. by split.
  - eexists. rewrite lookup_insert_eq. by split.
Qed.

(** ** Token lifetimes *)

Lemma unsnoc_append (s : string) (ch : ascii) :
  AuthService.unsnoc (s +:+ String ch "") = Some (s, ch).
Proof.
  induction s as [|c s IH]; [reflexivity|].
  change (String c s +:+ String ch "") with (String c (s +:+ String ch "")).
  simpl. by rewrite IH.
Qed.

Lemma is_nat_digit (ch : ascii) (d : nat) :
  Ascii.is_nat ch = Some d → (d ≤ 9)%nat ∧ AuthService.isUnit ch = false.
Proof.
  destruct ch as [[] [] [] [] [] [] [] []]; simpl; try done;
    intros [= <-]; split; (lia || done).
Qed.

Lemma parseInt_bounds (digits : string) :
  ∀ acc v,
    0 ≤ acc →
    AuthService.parseInt acc digits = Some v →
    acc * 10 ^ Z.of_nat (String.length digits) ≤ v
    ∧ v < (acc + 1) * 10 ^ Z.of_nat (String.length digits).
Proof.
  induction digits as [|ch rest IH]; intros acc v Hacc; simpl String.length.
  - intros [= <-]. simpl. lia.
  - simpl AuthService.parseInt.
    destruct (Ascii.is_nat ch) as [d|] eqn:Hd; [|done]. intros Hv.
    apply is_nat_digit in Hd as [Hd _].
    apply IH in Hv as [Hlow Hhigh]; [|lia].
    rewrite Nat2Z.inj_succ, Z.pow_succ_r by lia.
    assert (0 < 10 ^ Z.of_nat (String.length rest)) by (apply Z.pow_pos_nonneg; lia).
    nia.
Qed.

Lemma parseInt_final_digit (digits : string) :
  ∀ acc v init final,
    AuthService.parseInt acc digits = Some v →
    AuthService.unsnoc digits = Some (init, final) →
    AuthService.isUnit final = false.
Proof.
  induction digits as [|ch rest IH]; intros acc v init final; [done|].
  simpl. destruct (Ascii.is_nat ch) as [d|] eqn:Hd; [|done]. intros Hv.
  destruct (AuthService.unsnoc rest) as [[init' final']|] eqn:Hrest.
  - intros [= <- <-]. by eapply IH.
  - intros [= <- <-]. by apply is_nat_digit in Hd as [_ Hd].
Qed.

Lemma matchExpiration_unit (ch : ascii) (rest : string) (unit_ : ascii)
    (v : Z) :
  AuthService.parseInt 0 (String ch rest) = Some v →
  AuthService.isUnit unit_ = true →
  AuthService.matchExpiration (String ch rest +:+ String unit_ "")
  = Some (v, unit_).
Proof.
  intros Hv Hunit. unfold AuthService.matchExpiration.
  rewrite unsnoc_append, Hunit. by rewrite Hv.
Qed.

(** X17: token lifetimes.  For a number written with one to eight decimal
    digits, [parseExpiration] reads [<n>s] as [n] seconds in milliseconds,
    and [<n>m], [<n>h], [<n>d] as sixty, sixty times sixty and twenty-four
    times that again, all below [2^53]; the number alone, without a unit
    letter, is not read as seconds but gives the default of one hour. *)
Theorem parseExpiration_units (ch : ascii) (rest : string) (v : Z) :
  AuthService.parseInt 0 (String ch rest) = Some v →
  (String.length (String ch rest) ≤ 8)%nat →
  let digits := String ch rest in
  0 ≤ v
  ∧ AuthService.parseExpiration (digits +:+ "s") = v * 1000
  ∧ AuthService.parseExpiration (digits +:+ "m")
    = 60 * AuthService.parseExpiration (digits +:+ "s")
  ∧ AuthService.parseExpiration (digits +:+ "h")
    = 60 * AuthService.parseExpiration (digits +:+ "m")
  ∧ AuthService.parseExpiration (digits +:+ "d")
    = 24 * AuthService.parseExpiration (digits +:+ "h")
  ∧ AuthService.parseExpiration (digits +:+ "d") < 2 ^ 53
  ∧ AuthService.parseExpiration digits = 3600000.
Proof.
  intros Hv Hlen. cbv zeta.
  destruct (parseInt_bounds _ _ _ (Z.le_refl 0) Hv) as [Hlow Hhigh].
  assert (10 ^ Z.of_nat (String.length (String ch rest)) ≤ 10 ^ 8) as Hpow
    by (apply Z.pow_le_mono_r; lia).
  unfold AuthService.parseExpiration.
  rewrite !(matchExpiration_unit _ _ _ v) by done.
  change (Ascii.eqb "s" "s") with true. change (Ascii.eqb "m" "s") with false.
  change (Ascii.eqb "m" "m") with true. change (Ascii.eqb "h" "s") with false.
  change (Ascii.eqb "h" "m") with false. change (Ascii.eqb "h" "h") with true.
  change (Ascii.eqb "d" "s") with false. change (Ascii.eqb "d" "m") with false.
  change (Ascii.eqb "d" "h") with false. change (Ascii.eqb "d" "d") with true.
  cbv iota.
  split; [lia|]. split; [done|]. split; [lia|]. split; [lia|].
  split; [lia|]. split; [lia|].
  unfold AuthService.matchExpiration.
  destruct (AuthService.unsnoc (String ch rest)) as [[init final]|] eqn:Hsplit;
    [|done].
  rewrite (parseInt_final_digit _ _ _ _ _ Hv Hsplit). by destruct init.
Qed.

(** The lifetime of fifteen minutes. *)
Lemma parseExpiration_units_witness :
  AuthService.parseExpiration "15m" = 900000
  ∧ AuthService.parseExpiration "15" = 3600000.
Proof.
  destruct (parseExpiration_units "1" "5" 15) as (_ & Hs & Hm & _ & _ & _ & Hbare).
  - reflexivity.
  - simpl. lia.
  - split; [|exact Hbare].
    change (AuthService.parseExpiration ("15" +:+ "m") = 900000).
    rewrite Hm, Hs. reflexivity.
Defined.

Lemma unsnoc_inverse (s init : string) (final : ascii) :
  AuthService.unsnoc s = Some (init, final) → s = init +:+ String final "".
Proof.
  revert init. induction s as [|ch rest IH]; intros init; [done|]. simpl.
  destruct (AuthService.unsnoc rest) as [[init' final']|] eqn:Hrest.
  - intros [= <- <-]. by rewrite (IH init').
  - intros [= <- <-]. by destruct rest as [|c r];
      [|simpl in Hrest; destruct (AuthService.unsnoc r) as [[] |]].
Qed.

(** X18: a lifetime other than the default hour can only come from a
    well-formed string.  Unless the whole string is one or more decimal
    digits followed by exactly one of [s], [m], [h], [d], the result of
    [parseExpiration] is 3600000: so for "", "90", "1.5h", "-5m", "5 m",
    "5M" and also "500ms". *)
Theorem parseExpiration_default (expiration : string) :
  AuthService.parseExpiration expiration = 3600000
  ∨ ∃ digits unit_ v,
      expiration = digits +:+ String unit_ ""
      ∧ digits ≠ ""
      ∧ AuthService.parseInt 0 digits = Some v
      ∧ AuthService.isUnit unit_ = true.
Proof.
  unfold AuthService.parseExpiration, AuthService.matchExpiration.
  destruct (AuthService.unsnoc expiration) as [[init final]|] eqn:Hsplit;
    [|by left].
  destruct init as [|ch digits]; [by left|].
  destruct (AuthService.isUnit final) eqn:Hunit; [|by left].
  destruct (AuthService.parseInt 0 (String ch digits)) as [v|] eqn:Hv;
    [|by left].
  right. exists (String ch digits), final, v.
  split; [by apply unsnoc_inverse|]. by repeat split.
Qed.

(** * Users and authentication *)

Lemma elem_of_userRows (t : Users) (u : User.t) :
  keyedUsers t → (u ∈ UsersService.userRows t ↔ t !! User.id u = Some u).
Proof.
  intros Hkeyed. unfold UsersService.userRows. rewrite list_elem_of_fmap.
  split.
  - intros ([k u'] & -> & Hin%elem_of_map_to_list). simpl.
    by rewrite (Hkeyed _ _ Hin).
  - intros Hu. exists (User.id u, u). split; [done|].
    by apply elem_of_map_to_list.
Qed.

Lemma collides_spec (username0 email0 : string) (u : User.t) :
  UsersService.collides username0 email0 u = true
  ↔ User.username u = username0 ∨ User.email u = email0.
Proof.
  unfold UsersService.collides.
  by rewrite orb_true_iff, !String.eqb_eq.
Qed.

Lemma find_available (username0 email0 : string) (t : Users) :
  available username0 email0 t →
  UsersService.findByUsernameOrEmail username0 email0 t = None
  ∧ existsb (UsersService.collides username0 email0) (UsersService.userRows t)
    = false.
Proof.
  intros Hfree.
  assert (∀ u, In u (UsersService.userRows t) →
               UsersService.collides username0 email0 u = false) as Hnone.
  { intros u Hu%list_elem_of_In. destruct (Hfree u Hu) as [Hn He].
    apply not_true_is_false. rewrite collides_spec. tauto. }
  split.
  - unfold UsersService.findByUsernameOrEmail.
    destruct (find _ _) as [u|] eqn:Hfind; [|done].
    apply find_some in Hfind as [Hin Hhit]. by rewrite Hnone in Hhit.
  - apply not_true_is_false. intros (u & Hin & Hhit)%existsb_exists.
    by rewrite Hnone in Hhit.
Qed.

Lemma find_taken (username0 email0 : string) (t : Users) (u : User.t) :
  u ∈ UsersService.userRows t →
  User.username u = username0 ∨ User.email u = email0 →
  ∃ v, UsersService.findByUsernameOrEmail username0 email0 t = Some v
       ∧ v ∈ UsersService.userRows t
       ∧ (User.username v = username0 ∨ User.email v = email0).
Proof.
  intros Hin Hhit. unfold UsersService.findByUsernameOrEmail.
  destruct (find _ _) as [v|] eqn:Hfind.
  - apply find_some in Hfind as [Hv Hc]. exists v. split; [done|].
    split; [by apply list_elem_of_In | by apply collides_spec].
  - apply list_elem_of_In in Hin.
    pose proof (find_none _ _ Hfind u Hin) as Hmiss.
    apply collides_spec in Hhit. congruence.
Qed.

(** A row that alone answers to an identifier is the one found. *)
Lemma find_only (username0 email0 : string) (t : Users) (u : User.t) :
  u ∈ UsersService.userRows t →
  User.username u = username0 ∨ User.email u = email0 →
  (∀ v, v ∈ UsersService.userRows t →
        User.username v = username0 ∨ User.email v = email0 → v = u) →
  UsersService.findByUsernameOrEmail username0 email0 t = Some u.
Proof.
  intros Hin Hhit Honly.
  destruct (find_taken _ _ _ _ Hin Hhit) as (v & -> & Hv & Hvhit).
  by rewrite (Honly v Hv Hvhit).
Qed.

Section auth_properties.

Variable compare : string → string → bool.
Variable signAccess signRefresh : string → string → string → string.
Variable verifyRefresh : string → option string.
Variable expiresIn : string.

(** X19: [register] refuses a username or an email that a stored user
    already has, with a [ConflictException] and without writing; when both
    are free it stores one new user with the hashed password it was given,
    active, with an unverified email and no login yet, and answers with
    tokens signed for that user and an expiry [parseExpiration(expiresIn)]
    after now. *)
Theorem register_outcomes (registerDto : AuthService.RegisterDto)
    (hashedPassword newId : string) (created now : Z) (t : Users) :
  let outcome := AuthService.register signAccess signRefresh expiresIn
                   registerDto hashedPassword newId created now t in
  (∀ u, u ∈ UsersService.userRows t →
        User.username u = AuthService.regUsername registerDto
        ∨ User.email u = AuthService.regEmail registerDto →
        outcome
        = (Thrown (ConflictException "Username or email already exists"), t))
  ∧ (available (AuthService.regUsername registerDto)
       (AuthService.regEmail registerDto) t →
     ∃ user,
       outcome
       = (Returned (AuthService.respond signAccess signRefresh expiresIn
                      user now), <[newId := user]> t)
       ∧ User.id user = newId
       ∧ User.username user = AuthService.regUsername registerDto
       ∧ User.email user = AuthService.regEmail registerDto
       ∧ User.password user = hashedPassword
       ∧ User.isActive user = true
       ∧ User.isEmailVerified user = false
       ∧ User.lastLoginAt user = None
       ∧ AuthService.expiresAt
           (AuthService.respond signAccess signRefresh expiresIn user now)
         = now + AuthService.parseExpiration expiresIn).
Proof.
  cbv zeta. unfold AuthService.register. split.
  - intros u Hu Hhit. by destruct (find_taken _ _ _ _ Hu Hhit) as (v & -> & _).
  - intros Hfree. destruct (find_available _ _ _ Hfree) as [-> Hnone].
    unfold UsersService.create. simpl. rewrite Hnone.
    eexists. split; [reflexivity|]. by repeat split.
Qed.

(** X20: whatever the table and the credentials, [login] ends in one of two
    ways.  Either it is refused with [UnauthorizedException('Invalid
    credentials')], the same for an unknown identifier, a deactivated user
    and a wrong password, and nothing is written; or it answers for an
    active stored user whose username or email is the identifier and whose
    password [compare] accepted, and the only write is that user's
    [lastLoginAt] (the user in the response still shows the previous
    one). *)
Theorem login_outcomes (loginDto : AuthService.LoginDto) (stamp now : Z)
    (t : Users) :
  let outcome := AuthService.login compare signAccess signRefresh expiresIn
                   loginDto stamp now t in
  outcome = (Thrown (UnauthorizedException "Invalid credentials"), t)
  ∨ ∃ user,
      user ∈ UsersService.userRows t
      ∧ (User.username user = AuthService.usernameOrEmail loginDto
         ∨ User.email user = AuthService.usernameOrEmail loginDto)
      ∧ User.isActive user = true
      ∧ compare (AuthService.loginPassword loginDto) (User.password user)
        = true
      ∧ outcome
        = (Returned (AuthService.respond signAccess signRefresh expiresIn
                       user now),
           alter (UsersService.setLastLoginAt stamp) (User.id user) t)
      ∧ AuthService.publicLastLoginAt
          (AuthService.responseUser
             (AuthService.respond signAccess signRefresh expiresIn user now))
        = User.lastLoginAt user.
Proof.
  cbv zeta. unfold AuthService.login, UsersService.findByUsernameOrEmail.
  destruct (find _ _) as [user|] eqn:Hfind; [|by left].
  apply find_some in Hfind as [Hin Hhit].
  destruct (User.isActive user) eqn:Hactive; [|by left]. simpl.
  destruct (compare _ _) eqn:Hpw; [|by left]. simpl.
  right. exists user. split; [by apply list_elem_of_In|].
  split; [by apply collides_spec|]. by repeat split.
Qed.

Lemma keyedUsers_insert (t : Users) (u : User.t) :
  keyedUsers t → keyedUsers (<[User.id u := u]> t).
Proof.
  intros H k v. destruct (decide (User.id u = k)) as [<-|Hne].
  - rewrite lookup_insert_eq. congruence.
  - rewrite lookup_insert_ne by done. apply H.
Qed.

(** The rows after one row is written: that row, and the rows of the other
    keys. *)
Lemma elem_of_userRows_insert (t : Users) (u v : User.t) :
  keyedUsers t →
  v ∈ UsersService.userRows (<[User.id u := u]> t)
  ↔ v = u ∨ (v ∈ UsersService.userRows t ∧ User.id v ≠ User.id u).
Proof.
  intros Hkeyed.
  rewrite !elem_of_userRows by (done || by apply keyedUsers_insert).
  destruct (decide (User.id u = User.id v)) as [Heq|Hne].
  - rewrite <- Heq, lookup_insert_eq. split.
    + intros [= ->]. by left.
    + intros [-> | [_ ?]]; done.
  - rewrite lookup_insert_ne by done. split.
    + intros Hv. right. split; [done | congruence].
    + intros [-> | [Hv _]]; done.
Qed.

Lemma uniqueUsers_replace (t : Users) (id0 : string) (u u' : User.t) :
  keyedUsers t → uniqueUsers t →
  t !! id0 = Some u →
  User.id u' = User.id u →
  User.username u' = User.username u →
  User.email u' = User.email u →
  keyedUsers (<[User.id u' := u']> t)
  ∧ uniqueUsers (<[User.id u' := u']> t).
Proof.
  intros Hkeyed Hunique Hu Hid Hname Hmail.
  split; [by apply keyedUsers_insert|].
  assert (u ∈ UsersService.userRows t) as Hin.
  { apply elem_of_userRows; [done|]. by rewrite (Hkeyed _ _ Hu). }
  intros a b Ha%elem_of_userRows_insert Hb%elem_of_userRows_insert Hhit;
    [|done..].
  destruct Ha as [-> | [Ha Hida]]; destruct Hb as [-> | [Hb Hidb]];
    [done| | |by apply Hunique].
  - rewrite Hname, Hmail in Hhit.
    pose proof (Hunique u b Hin Hb Hhit) as <-. congruence.
  - rewrite Hname, Hmail in Hhit.
    assert (a = u) as -> by (apply Hunique; [done..|];
                             destruct Hhit as [<- | <-]; auto).
    congruence.
Qed.

Lemma uniqueUsers_new (t : Users) (u : User.t) :
  keyedUsers t → uniqueUsers t →
  available (User.username u) (User.email u) t →
  keyedUsers (<[User.id u := u]> t) ∧ uniqueUsers (<[User.id u := u]> t).
Proof.
  intros Hkeyed Hunique Hfree. split; [by apply keyedUsers_insert|].
  intros a b Ha%elem_of_userRows_insert Hb%elem_of_userRows_insert Hhit;
    [|done..].
  destruct Ha as [-> | [Ha _]]; destruct Hb as [-> | [Hb _]];
    [done| | |by apply Hunique].
  - destruct (Hfree b Hb) as [Hn He]. destruct Hhit; congruence.
  - destruct (Hfree a Ha) as [Hn He]. destruct Hhit; congruence.
Qed.

Lemma existsb_collides_false (username0 email0 : string) (t : Users) :
  existsb (UsersService.collides username0 email0) (UsersService.userRows t)
  = false →
  available username0 email0 t.
Proof.
  intros Hnone u Hu.
  assert (UsersService.collides username0 email0 u = false) as Hmiss.
  { apply not_true_is_false. intros Hhit.
    assert (existsb (UsersService.collides username0 email0)
              (UsersService.userRows t) = true) as Hyes
      by (apply existsb_exists; exists u; split;
          [by apply list_elem_of_In | done]).
    congruence. }
  split; intros Heq; apply not_true_iff_false in Hmiss; apply Hmiss;
    apply collides_spec; auto.
Qed.

(** X21: usernames and emails stay unique.  On a users table keyed by id
    in which no two users share a username or an email, [create],
    [register], [update] (so [deactivate], [activate], [verifyEmail]) and
    [login] all leave such a table. *)
Theorem users_stay_unique (t : Users) (userData : UsersService.CreateUserData)
    (registerDto : AuthService.RegisterDto) (hashed newId id0 : string)
    (updateData : UsersService.UpdateUserData)
    (loginDto : AuthService.LoginDto) (created stamp now : Z) :
  keyedUsers t →
  uniqueUsers t →
  let kept (t' : Users) := keyedUsers t' ∧ uniqueUsers t' in
  kept (UsersService.create userData newId created t).2
  ∧ kept (AuthService.register signAccess signRefresh expiresIn registerDto
            hashed newId created now t).2
  ∧ kept (UsersService.update id0 updateData t).2
  ∧ kept (AuthService.login compare signAccess signRefresh expiresIn loginDto
            stamp now t).2.
Proof.
  intros Hkeyed Hunique. cbv zeta.
  assert (∀ data, keyedUsers (UsersService.create data newId created t).2
                  ∧ uniqueUsers (UsersService.create data newId created t).2)
    as Hcreate.
  { intros data. unfold UsersService.create.
    destruct (existsb _ _) eqn:Hnone; [done|]. simpl.
    apply (uniqueUsers_new t (User.mk newId _ _ _ _ _ _ _ _ _ _));
      [done..|]. by apply existsb_collides_false. }
  split; [apply Hcreate|]. split; [|split].
  - unfold AuthService.register.
    destruct (UsersService.findByUsernameOrEmail _ _ _); [done|].
    match goal with
    | |- context [UsersService.create ?d newId created t] =>
        specialize (Hcreate d);
        destruct (UsersService.create d newId created t) as [[user|e] t']
    end; done.
  - unfold UsersService.update, UsersService.findById.
    destruct (t !! id0) as [u|] eqn:Hu; [|done]. simpl.
    by apply (uniqueUsers_replace t id0 u (UsersService.assign u updateData)).
  - unfold AuthService.login, UsersService.findByUsernameOrEmail,
      UsersService.updateLastLogin.
    destruct (find _ _) as [user|] eqn:Hfind; [|done].
    apply find_some in Hfind as [Hin%list_elem_of_In _].
    destruct (negb (User.isActive user)); [done|].
    destruct (negb (compare _ _)); [done|]. cbn [snd].
    apply elem_of_userRows in Hin; [|done].
    assert (alter (UsersService.setLastLoginAt stamp) (User.id user) t
            = <[User.id (UsersService.setLastLoginAt stamp user)
                := UsersService.setLastLoginAt stamp user]> t) as ->.
    { simpl. apply map_eq. intros k.
      destruct (decide (User.id user = k)) as [<-|Hne].
      - by rewrite lookup_alter_eq, lookup_insert_eq, Hin.
      - by rewrite lookup_alter_ne, lookup_insert_ne. }
    by apply (uniqueUsers_replace t (User.id user) user).
Qed.

(** X22: a registered user can log in.  After a registration that found
    both the username and the email free, a login under either of them,
    when nobody else answers to that identifier, succeeds exactly when
    [bcrypt.compare] accepts the password against the stored hash: it then
    answers for the registered user and stamps the login on that user's
    row, and otherwise throws [UnauthorizedException] and writes
    nothing. *)
Theorem register_then_login (registerDto : AuthService.RegisterDto)
    (hashed newId identifier password0 : string)
    (created now stamp later : Z) (t : Users) :
  keyedUsers t →
  available (AuthService.regUsername registerDto)
    (AuthService.regEmail registerDto) t →
  identifier = AuthService.regUsername registerDto
  ∨ identifier = AuthService.regEmail registerDto →
  available identifier identifier t →
  let registered := AuthService.register signAccess signRefresh expiresIn
                      registerDto hashed newId created now t in
  ∃ user,
    registered.1
    = Returned (AuthService.respond signAccess signRefresh expiresIn user now)
    ∧ registered.2 !! newId = Some user
    ∧ User.password user = hashed
    ∧ AuthService.login compare signAccess signRefresh expiresIn
        (AuthService.mkLoginDto identifier password0) stamp later registered.2
      = if compare password0 hashed
        then (Returned (AuthService.respond signAccess signRefresh expiresIn
                          user later),
              <[newId := UsersService.setLastLoginAt stamp user]> t)
        else (Thrown (UnauthorizedException "Invalid credentials"),
              registered.2).
Proof using compare signAccess signRefresh expiresIn.
  intros Hkeyed Hfree Hident Hnobody. cbv zeta.
  unfold AuthService.register.
  destruct (find_available _ _ _ Hfree) as [-> Hnone].
  unfold UsersService.create. cbn [UsersService.newUsername
    UsersService.newEmail UsersService.newPassword UsersService.newFirstName
    UsersService.newLastName UsersService.newAvatar].
  rewrite Hnone. cbn [fst snd].
  set (user := User.mk newId _ _ _ _ _ _ _ _ _ _).
  exists user. split; [done|]. split; [by rewrite lookup_insert_eq|].
  split; [done|].
  assert (UsersService.findByUsernameOrEmail identifier identifier
            (<[newId := user]> t) = Some user) as Hfind.
  { change newId with (User.id user) at 1.
    apply find_only.
    - apply elem_of_userRows_insert; [done|]. by left.
    - destruct Hident as [-> | ->]; [by left | by right].
    - intros v [-> | [Hv _]]%elem_of_userRows_insert Hhit; [done| |done].
      destruct (Hnobody v Hv) as [Hn He]. by destruct Hhit. }
  unfold AuthService.login. cbn [AuthService.usernameOrEmail
    AuthService.loginPassword]. rewrite Hfind.
  change (User.isActive user) with true.
  change (User.password user) with hashed.
  change (User.id user) with newId. cbn [negb].
  destruct (compare password0 hashed); cbn [negb]; [|done].
  f_equal. unfold UsersService.updateLastLogin. apply map_eq. intros k.
  destruct (decide (newId = k)) as [<-|Hne].
  - by rewrite lookup_alter_eq, !lookup_insert_eq.
  - by rewrite lookup_alter_ne, !lookup_insert_ne.
Qed.

Lemma assign_off_on (u : User.t) :
  User.isActive u = true →
  UsersService.assign
    (UsersService.assign u (UsersService.onlyIsActive false))
    (UsersService.onlyIsActive true) = u.
Proof. destruct u. simpl. by intros ->. Qed.

(** X23: a deactivated user is locked out.  Once [deactivate] has run on a
    stored user, [validateUser] no longer yields that user, a refresh token
    that verifies for that user is refused, and a login under an identifier
    that nobody else answers to is refused whatever the password, each
    without writing; [activate] then gives back the table as it was before
    the deactivation when the user was active then. *)
Theorem deactivated_user_locked_out (id0 token : string) (u : User.t)
    (loginDto : AuthService.LoginDto) (stamp now : Z) (t : Users) :
  keyedUsers t →
  t !! id0 = Some u →
  verifyRefresh token = Some id0 →
  (∀ v, v ∈ UsersService.userRows t →
        User.username v = AuthService.usernameOrEmail loginDto
        ∨ User.email v = AuthService.usernameOrEmail loginDto →
        v = u) →
  let t' := (UsersService.deactivate id0 t).2 in
  AuthService.validateUser id0 t' = None
  ∧ AuthService.refreshTokens signAccess signRefresh verifyRefresh expiresIn
      token now t'
    = (Thrown (UnauthorizedException "Invalid refresh token"), t')
  ∧ AuthService.login compare signAccess signRefresh expiresIn loginDto stamp
      now t'
    = (Thrown (UnauthorizedException "Invalid credentials"), t')
  ∧ (User.isActive u = true → (UsersService.activate id0 t').2 = t).
Proof.
  intros Hkeyed Hu Htoken Honly. cbv zeta.
  pose proof (Hkeyed _ _ Hu) as Hid.
  unfold UsersService.deactivate, UsersService.update, UsersService.findById.
  rewrite Hu. cbn [snd].
  set (off := UsersService.assign u (UsersService.onlyIsActive false)).
  change (User.id off) with (User.id u). rewrite Hid.
  assert (<[id0 := off]> t !! id0 = Some off) as Hoff
    by apply lookup_insert_eq.
  split; [|split; [|split]].
  - unfold AuthService.validateUser, UsersService.findById. by rewrite Hoff.
  - unfold AuthService.refreshTokens, UsersService.findById.
    by rewrite Htoken, Hoff.
  - unfold AuthService.login.
    destruct (UsersService.findByUsernameOrEmail _ _ _) as [v|] eqn:Hfind;
      [|done].
    apply find_some in Hfind as [Hv%list_elem_of_In Hhit%collides_spec].
    assert (<[id0 := off]> t = <[User.id off := off]> t) as Heq
      by (by change (User.id off) with (User.id u); rewrite Hid).
    rewrite Heq in Hv.
    apply elem_of_userRows_insert in Hv as [-> | [Hv Hne]]; [done| |done].
    rewrite (Honly v Hv Hhit) in Hne. done.
  - intros Hactive. unfold UsersService.activate, UsersService.update,
      UsersService.findById. rewrite Hoff. cbn [snd].
    change (User.id (UsersService.assign off (UsersService.onlyIsActive true)))
      with (User.id u).
    unfold off. rewrite (assign_off_on u Hactive), Hid, insert_insert_eq.
    by apply insert_id.
Qed.

End auth_properties.

(** ** The sample users *)

Lemma userRows_usersAlice : UsersService.userRows usersAlice = [alice].
Proof.
  unfold UsersService.userRows, usersAlice. by rewrite map_to_list_singleton.
Qed.

Lemma keyedUsers_usersAlice : keyedUsers usersAlice.
Proof.
  intros k u Hu. unfold usersAlice in Hu.
  by apply lookup_singleton_Some in Hu as [<- <-].
Qed.

Lemma uniqueUsers_usersAlice : uniqueUsers usersAlice.
Proof.
  intros u v. rewrite userRows_usersAlice.
  by intros ->%list_elem_of_singleton ->%list_elem_of_singleton.
Qed.

Lemma available_usersAlice (username0 email0 : string) :
  username0 ≠ "alice" → email0 ≠ "alice@example.org" →
  available username0 email0 usersAlice.
Proof.
  intros Hn He u. rewrite userRows_usersAlice.
  intros ->%list_elem_of_singleton. by split.
Qed.

(** The author of the root soft-deletes it while a reply to it is under
    way. *)
Lemma reply_lands_under_deleted_parent_witness :
  ∃ p', (interleave deleteAfterLookup
           [replyTask delivers "A" (mkReplyRequest "reply" "u2" "B" 200);
            deleteTask "A" "u1" 400 401] tableA).2 !! "A" = Some p'
        ∧ isDeleted p' = true
        ∧ childrenCount p' = 1.
Proof.
  destruct (reply_lands_under_deleted_parent delivers "A" commentA0
              (mkReplyRequest "reply" "u2" "B" 200) 400 401 tableA)
    as (_ & Hparent & _).
  - by vm_compute.
  - reflexivity.
  - discriminate.
  - discriminate.
  - reflexivity.
  - by vm_compute.
  - exact Hparent.
Defined.

(** Bob registers beside Alice; registering as Alice is refused. *)
Lemma register_outcomes_witness :
  AuthService.register accessFor refreshFor "15m"
    (AuthService.mkRegisterDto "alice" "other@example.org" "pw" None None)
    "hash:pw" "u2" 200 201 usersAlice
  = (Thrown (ConflictException "Username or email already exists"),
     usersAlice)
  ∧ ∃ user,
      AuthService.register accessFor refreshFor "15m" registerBob
        "hash:hunter2" "u2" 200 201 usersAlice
      = (Returned (AuthService.respond accessFor refreshFor "15m" user 201),
         <["u2" := user]> usersAlice)
      ∧ User.username user = "bob".
Proof.
  split.
  - apply (register_outcomes accessFor refreshFor "15m"
             (AuthService.mkRegisterDto "alice" "other@example.org" "pw" None
                None) "hash:pw" "u2" 200 201 usersAlice) with alice.
    + rewrite userRows_usersAlice. by apply list_elem_of_singleton.
    + by left.
  - destruct (register_outcomes accessFor refreshFor "15m" registerBob
                "hash:hunter2" "u2" 200 201 usersAlice) as [_ Hfree].
    destruct Hfree as (user & Hout & _ & Hname & _).
    + by apply available_usersAlice.
    + exists user. by split.
Defined.

(** Alice logs in with a wrong password. *)
Lemma login_outcomes_witness :
  AuthService.login sameText accessFor refreshFor "15m"
    (AuthService.mkLoginDto "alice" "guess") 300 301 usersAlice
  = (Thrown (UnauthorizedException "Invalid credentials"), usersAlice).
Proof.
  destruct (login_outcomes sameText accessFor refreshFor "15m"
              (AuthService.mkLoginDto "alice" "guess") 300 301 usersAlice)
    as [Hout | (user & Hin & _ & _ & Hpw & _)].
  - exact Hout.
  - rewrite userRows_usersAlice in Hin.
    apply list_elem_of_singleton in Hin. subst user.
    vm_compute in Hpw. discriminate.
Defined.

(** Bob is created beside Alice. *)
Lemma users_stay_unique_witness :
  uniqueUsers
    (UsersService.create
       (UsersService.mkCreateUserData "bob" "bob@example.org" "hash:hunter2"
          None None None) "u2" 200 usersAlice).2.
Proof.
  destruct (users_stay_unique sameText accessFor refreshFor "15m" usersAlice
              (UsersService.mkCreateUserData "bob" "bob@example.org"
                 "hash:hunter2" None None None)
              registerBob "hash:hunter2" "u2" "u1"
              (UsersService.onlyIsActive false)
              (AuthService.mkLoginDto "alice" "secret") 200 300 301)
    as [[_ Hunique] _].
  - exact keyedUsers_usersAlice.
  - exact uniqueUsers_usersAlice.
  - exact Hunique.
Defined.

(** Bob registers and logs in by email with the registered password. *)
Lemma register_then_login_witness :
  ∃ user,
    AuthService.login sameText accessFor refreshFor "15m"
      (AuthService.mkLoginDto "bob@example.org" "hunter2") 300 301
      (AuthService.register accessFor refreshFor "15m" registerBob
         "hash:hunter2" "u2" 200 201 usersAlice).2
    = (Returned (AuthService.respond accessFor refreshFor "15m" user 301),
       <["u2" := UsersService.setLastLoginAt 300 user]> usersAlice).
Proof.
  destruct (register_then_login sameText accessFor refreshFor "15m"
              registerBob "hash:hunter2" "u2" "bob@example.org" "hunter2"
              200 201 300 301 usersAlice)
    as (user & _ & _ & _ & Hlogin).
  - exact keyedUsers_usersAlice.
  - by apply available_usersAlice.
  - by right.
  - by apply available_usersAlice.
  - exists user. exact Hlogin.
Defined.

(** Alice is deactivated, tries her refresh token, and is activated
    again. *)
Lemma deactivated_user_locked_out_witness :
  AuthService.refreshTokens accessFor refreshFor verifiesU1 "15m"
    "refresh.u1" 301 (UsersService.deactivate "u1" usersAlice).2
  = (Thrown (UnauthorizedException "Invalid refresh token"),
     (UsersService.deactivate "u1" usersAlice).2)
  ∧ (UsersService.activate "u1" (UsersService.deactivate "u1" usersAlice).2).2
    = usersAlice.
Proof.
  destruct (deactivated_user_locked_out sameText accessFor refreshFor
              verifiesU1 "15m" "u1" "refresh.u1" alice
              (AuthService.mkLoginDto "alice" "secret") 300 301 usersAlice)
    as (_ & Hrefresh & _ & Hback).
  - exact keyedUsers_usersAlice.
  - by apply lookup_singleton_eq.
  - reflexivity.
  - intros v. rewrite userRows_usersAlice.
    by intros ->%list_elem_of_singleton.
  - split; [exact Hrefresh | by apply Hback].
Defined.

(** The first reply to the sample root: the root's counter goes to one. *)
Lemma create_writes_two_rows_witness :
  (run (create delivers "reply" "u2" (Some "A") "B" 200) tableA).2 !! "A"
  = Some (set_childrenCount 1 commentA0).
Proof.
  destruct (create_writes_two_rows delivers "reply" "u2" (Some "A") "B" 200
              tableA) as (_ & Hparent & _).
  destruct (Hparent "A" commentA0) as [_ Hlive].
  - reflexivity.
  - discriminate.
  - discriminate.
  - by vm_compute.
  - exact (Hlive eq_refl).
Defined.
